(** * psinglepoint: the Molecule value object

    A shallow embedding of [src/molecule.py]: the [Molecule] class with its
    constructor, unit conversion, iteration, stringification, copy and
    coordinate replacement, over a model of the Python objects it touches
    (strings, exceptions, IEEE binary64 numbers and heap-allocated numpy
    arrays), followed by the properties proved about it.

    The modules [parse] (class [CoordinateString]) and [util]
    ([atomdata], [physconst]) are imported by [molecule.py] but are not
    part of the sources at hand.  The atomic-mass lookup and the
    bohr-to-angstrom factor are parameters of the development; the
    coordinate-string parser is modelled from the specification. *)

From Stdlib Require Import ZArith QArith Qabs Qpower Qround Lia Lqa Bool List.
From Stdlib Require Import String Ascii Floats.
Import ListNotations.

Set Warnings "-inexact-float".
Close Scope Q_scope.

(* ================================================================== *)
(** * Python runtime model *)
(* ================================================================== *)

Module Py.

(** Exceptions the modelled code can raise. *)
Inductive exn : Type :=
| ValueError (msg : string)
| LookupError (key : string)
| IndexError (msg : string)
| FormatError (line : string)
| AttributeError (msg : string)
| SystemError.

Inductive result (A : Type) : Type :=
| Ok (a : A)
| Raise (e : exn).

Arguments Ok {A} a.
Arguments Raise {A} e.

Definition is_ok {A} (r : result A) : bool :=
  match r with Ok _ => true | Raise _ => false end.

(** A numpy array of dtype float64 with two axes: a list of rows.  Arrays
    are mutable objects; they live in a heap and are named by references. *)
Definition ndarray : Type := list (list float).
Definition ref : Type := nat.
Definition heap : Type := list ndarray.

(** Computations that read and write the heap and may raise.  The heap
    survives an exception, as in Python. *)
Definition M (A : Type) : Type := heap -> result A * heap.

Definition ret {A} (a : A) : M A := fun h => (Ok a, h).

Definition raise {A} (e : exn) : M A := fun h => (Raise e, h).

Definition bind {A B} (c : M A) (k : A -> M B) : M B :=
  fun h => match c h with
           | (Ok a, h') => k a h'
           | (Raise e, h') => (Raise e, h')
           end.

Definition lift {A} (r : result A) : M A := fun h => (r, h).

(** Allocation of a fresh array object. *)
Definition alloc (a : ndarray) : M ref :=
  fun h => (Ok (List.length h), h ++ [a]).

(** Reading the array a reference points to. *)
Definition deref (r : ref) : M ndarray :=
  fun h => match nth_error h r with
           | Some a => (Ok a, h)
           | None => (Raise SystemError, h)
           end.

Fixpoint update {A} (l : list A) (i : nat) (x : A) : list A :=
  match l, i with
  | [], _ => []
  | _ :: t, O => x :: t
  | y :: t, S j => y :: update t j x
  end.

(** Overwriting the contents of an existing array object in place. *)
Definition store (r : ref) (a : ndarray) : M unit :=
  fun h => if Nat.ltb r (List.length h) then (Ok tt, update h r a)
           else (Raise SystemError, h).

(** [a[i][j] = v] on a two-axis array. *)
Definition setitem (r : ref) (i j : nat) (v : float) : M unit :=
  fun h => match nth_error h r with
           | Some a =>
               match nth_error a i with
               | Some row =>
                   if Nat.ltb j (List.length row)
                   then (Ok tt, update h r (update a i (update row j v)))
                   else (Raise (IndexError "index out of bounds"), h)
               | None => (Raise (IndexError "index out of bounds"), h)
               end
           | None => (Raise SystemError, h)
           end.

(** What [np.array] accepts here: a nested Python list of numbers, or an
    existing array object. *)
Inductive array_like : Type :=
| Nested (rows : list (list float))
| NdArray (r : ref).

(** [np.array(x)]: always a new array object holding a copy of the data. *)
Definition np_array (x : array_like) : M ref :=
  match x with
  | Nested rows => alloc rows
  | NdArray r => bind (deref r) alloc
  end.

(** [a.copy()] *)
Definition ndarray_copy (r : ref) : M ref := bind (deref r) alloc.

(** A reference names an array object of the heap. *)
Definition live (h : heap) (r : ref) : Prop := r < List.length h.

Definition array_like_ok (h : heap) (x : array_like) : Prop :=
  match x with
  | Nested _ => True
  | NdArray r => live h r
  end.

(** [a[i][j]] read from the heap. *)
Definition getitem (h : heap) (r : ref) (i j : nat) : option float :=
  match nth_error h r with
  | Some a => match nth_error a i with
              | Some row => nth_error row j
              | None => None
              end
  | None => None
  end.

(** Number of rows of the array a reference names. *)
Definition nrows (h : heap) (r : ref) : option nat :=
  option_map (@List.length (list float)) (nth_error h r).

(** Number of rows [np.array] finds in its argument. *)
Definition array_like_rows (h : heap) (x : array_like) : option nat :=
  match x with
  | Nested rows => Some (List.length rows)
  | NdArray r => nrows h r
  end.

(** [str.lower] on ASCII strings. *)
Definition lower_ascii (c : ascii) : ascii :=
  let n := nat_of_ascii c in
  if (Nat.leb 65 n && Nat.leb n 90)%bool then ascii_of_nat (n + 32) else c.

Fixpoint lower (s : string) : string :=
  match s with
  | EmptyString => EmptyString
  | String c s' => String (lower_ascii c) (lower s')
  end.

(** [zip] of two finite sequences: stops at the shorter one. *)
Fixpoint zip {A B} (l : list A) (l' : list B) : list (A * B) :=
  match l, l' with
  | x :: t, y :: t' => (x, y) :: zip t t'
  | _, _ => []
  end.

(** Left and right justification in a field of a minimum width, with
    spaces as fill ([{:2s}] and [{: >15...}]). *)
Fixpoint spaces (n : nat) : string :=
  match n with
  | O => EmptyString
  | S k => String " " (spaces k)
  end.

Definition ljust (w : nat) (s : string) : string :=
  (s ++ spaces (w - String.length s))%string.

Definition rjust (w : nat) (s : string) : string :=
  (spaces (w - String.length s) ++ s)%string.

End Py.

Declare Scope py_scope.
Delimit Scope py_scope with py.
Notation "x <- c ;; k" := (Py.bind c (fun x => k))
  (at level 61, c at next level, right associativity) : py_scope.
Notation "c ;;; k" := (Py.bind c (fun _ => k))
  (at level 61, right associativity) : py_scope.

(* ================================================================== *)
(** * IEEE binary64 numbers: exact values *)
(* ================================================================== *)

(** Coordinates are numpy float64 values, modelled by Rocq's primitive
    binary64 floats.  [Prim2SF] exposes sign, mantissa and exponent; the
    exact value of a finite float is the rational [(-1)^s * m * 2^e]. *)

Module B64.

Definition pow2 (e : Z) : Q := (2 # 1) ^ e.

Definition SF2Q (x : spec_float) : Q :=
  match x with
  | S754_finite s m e =>
      (if s then - inject_Z (Zpos m) else inject_Z (Zpos m)) * pow2 e
  | _ => 0
  end.

Definition to_Q (x : float) : Q := SF2Q (Prim2SF x).

Definition SFfinite (x : spec_float) : bool :=
  match x with
  | S754_finite _ _ _ | S754_zero _ => true
  | _ => false
  end.

Definition finite (x : float) : bool := SFfinite (Prim2SF x).

(** Round to the nearest integer, ties to even. *)
Definition round_half_even (q : Q) : Z :=
  let f := Qfloor q in
  match Qcompare (q - inject_Z f) (1 # 2) with
  | Lt => f
  | Eq => if Z.even f then f else (f + 1)%Z
  | Gt => (f + 1)%Z
  end.


(** ** Vocabulary of the rounding proofs *)

Local Open Scope Q_scope.

(** [r] lies in [[m * 2^e, (m+1) * 2^e)] at the place the round bit [rb]
    and the sticky bit [sb] tell. *)
Definition located (m e : Z) (rb sb : bool) (r : Q) : Prop :=
  match rb, sb with
  | false, false => r == inject_Z m * pow2 e
  | false, true =>
      inject_Z m * pow2 e < r /\ r < inject_Z m * pow2 e + (1 # 2) * pow2 e
  | true, false => r == inject_Z m * pow2 e + (1 # 2) * pow2 e
  | true, true =>
      inject_Z m * pow2 e + (1 # 2) * pow2 e < r /\ r < inject_Z m * pow2 e + pow2 e
  end.

Definition rec_located (mrs : shr_record) (e : Z) (r : Q) : Prop :=
  located (shr_m mrs) e (shr_r mrs) (shr_s mrs) r.

Definition loc_located (m e : Z) (l : location) (r : Q) : Prop :=
  rec_located (shr_record_of_loc m l) e r.

(** What rounding produces from a mantissa [0 <= m <= 2^53] at exponent
    [e]: a zero, a finite number (renormalised when [m = 2^53]) or, past
    the largest exponent, an infinity. *)
Definition SFround (sx : bool) (m e : Z) : spec_float :=
  if (m =? 0)%Z then S754_zero sx
  else if (m =? 2 ^ 53)%Z
       then if (e + 1 <=? 971)%Z then S754_finite sx (2 ^ 52)%positive (e + 1)
            else S754_infinity sx
       else if (e <=? 971)%Z then S754_finite sx (Z.to_pos m) e
            else S754_infinity sx.

(** A magnitude with a sign bit. *)
Definition signed (s : bool) (q : Q) : Q := if s then - q else q.

(** Finite, and zero or of magnitude between [2^-1021] and [2^1021]. *)
Definition in_range (x : float) : Prop :=
  finite x = true
  /\ (to_Q x == 0
      \/ (pow2 (-1021) <= Qabs (to_Q x) /\ Qabs (to_Q x) <= pow2 1021)).

(** [y] is finite and within the relative error [eps] of [x]. *)
Definition close (eps : Q) (x y : float) : Prop :=
  finite y = true /\ Qabs (to_Q y - to_Q x) <= eps * Qabs (to_Q x).

(** [y] is finite and within the absolute error [eps] of [x]. *)
Definition within (eps : Q) (x y : float) : Prop :=
  finite y = true /\ Qabs (to_Q y - to_Q x) <= eps.

(** The spec_float nearest to the rational [(-1)^s * n / d], computed by
    the division of the specification of binary64 arithmetic. *)
Definition SFratio (s : bool) (n d : positive) : spec_float :=
  SFdiv prec emax (S754_finite s n 0) (S754_finite false d 0).

End B64.

(* ================================================================== *)
(** * Text of numbers: [format(x, '.10f')] and [float(token)] *)
(* ================================================================== *)

Module Fmt.

Definition digit_char (d : Z) : ascii := ascii_of_nat (48 + Z.to_nat d).

Definition is_digit (c : ascii) : bool :=
  let n := nat_of_ascii c in (Nat.leb 48 n && Nat.leb n 57)%bool.

Definition digit_val (c : ascii) : Z := Z.of_nat (nat_of_ascii c - 48).

(** The [w] low decimal digits of [n], most significant first. *)
Fixpoint fixed_digits (w : nat) (n : Z) : string :=
  match w with
  | O => EmptyString
  | S w' => (fixed_digits w' (n / 10) ++ String (digit_char (n mod 10)) EmptyString)%string
  end.

(** Number of decimal digits of [n >= 0] (one for zero). *)
Fixpoint ndigits_fuel (fuel : nat) (n : Z) : nat :=
  match fuel with
  | O => 1
  | S f => if (n <? 10)%Z then 1 else S (ndigits_fuel f (n / 10))
  end.

Definition ndigits (n : Z) : nat := ndigits_fuel (Z.to_nat (Z.log2 n)) n.

Definition decimal (n : Z) : string := fixed_digits (ndigits n) n.

Definition sign_str (s : bool) : string := if s then "-"%string else EmptyString.

(** Every character of a string satisfies [p]. *)
Fixpoint all_chars (p : ascii -> bool) (s : string) : bool :=
  match s with
  | EmptyString => true
  | String c s' => (p c && all_chars p s')%bool
  end.

(** [format(x, '.{p}f')] for [p > 0]: the exact value of [x] rounded
    half-even to [p] decimals; the sign is the sign bit. *)
Definition format_f (p : nat) (x : float) : string :=
  match Prim2SF x with
  | S754_nan => "nan"%string
  | S754_infinity s => (sign_str s ++ "inf")%string
  | S754_zero s =>
      (sign_str s ++ "0." ++ fixed_digits p 0)%string
  | S754_finite s m e =>
      let scale := (10 ^ Z.of_nat p)%Z in
      let N := B64.round_half_even
                 (inject_Z (Zpos m) * B64.pow2 e * inject_Z scale) in
      (sign_str s ++ decimal (N / scale) ++ "." ++ fixed_digits p (N mod scale))%string
  end.

(** The conversion [{: >15.10f}] of [Molecule.__str__]. *)
Definition fmt_coord (x : float) : string := Py.rjust 15 (format_f 10 x).

(** A number is representable in the fixed-width format when it is finite
    and its ten-decimal text fits the field of 15 characters. *)
Definition fits (x : float) : bool :=
  (B64.finite x && Nat.leb (String.length (format_f 10 x)) 15)%bool.

(** ** Reading a number *)

Fixpoint parse_digits (s : string) (acc : Z) : option Z :=
  match s with
  | EmptyString => Some acc
  | String c s' =>
      if is_digit c then parse_digits s' (acc * 10 + digit_val c)%Z else None
  end.

(** Split at the first character satisfying [p]: the text before it, and
    the text after it when there is one. *)
Fixpoint split_at (p : ascii -> bool) (s : string) : string * option string :=
  match s with
  | EmptyString => (EmptyString, None)
  | String c s' =>
      if p c then (EmptyString, Some s')
      else let '(a, b) := split_at p s' in (String c a, b)
  end.

Definition is_char (n : nat) (c : ascii) : bool := Nat.eqb (nat_of_ascii c) n.

Definition is_exp_mark (c : ascii) : bool := (is_char 101 c || is_char 69 c)%bool.

(** Optional sign followed by a non-empty run of digits. *)
Definition strip_sign (s : string) : bool * string :=
  match s with
  | String c s' =>
      if is_char 45 c then (true, s')
      else if is_char 43 c then (false, s')
      else (false, s)
  | EmptyString => (false, s)
  end.

Definition parse_nonempty_digits (s : string) : option Z :=
  match s with
  | EmptyString => None
  | _ => parse_digits s 0
  end.

Definition parse_int (s : string) : option Z :=
  let '(neg, body) := strip_sign s in
  match parse_nonempty_digits body with
  | Some n => Some (if neg then - n else n)%Z
  | None => None
  end.

(** Modelled from the spec: the reading of a coordinate token "parseable
    as floating-point", missing with the [parse] module.  It follows
    Python's [float]: an optional sign, then [inf], [infinity] or [nan],
    or decimal digits with an optional fractional part and an optional
    exponent; the result is the binary64 number nearest to the decimal
    (ties to even). *)
Definition float_of_string (tok : string) : option float :=
  let '(neg, body) := strip_sign tok in
  let low := Py.lower body in
  if (String.eqb low "inf" || String.eqb low "infinity")%bool
  then Some (SF2Prim (S754_infinity neg))
  else if String.eqb low "nan" then Some (SF2Prim S754_nan)
  else
    let '(mant, ex) := split_at is_exp_mark body in
    let '(ip, fp) := split_at (is_char 46) mant in
    let fp := match fp with Some f => f | None => EmptyString end in
    match parse_nonempty_digits (ip ++ fp),
          match ex with Some es => parse_int es | None => Some 0%Z end with
    | Some n, Some x =>
        let E := (x - Z.of_nat (String.length fp))%Z in
        let num := (n * 10 ^ Z.max E 0)%Z in
        let den := (10 ^ Z.max (- E) 0)%Z in
        Some (SF2Prim
                (match num with
                 | Zpos pn => B64.SFratio neg pn (Z.to_pos den)
                 | _ => S754_zero neg
                 end))
    | _, _ => None
    end.

End Fmt.

(* ================================================================== *)
(** * The coordinate-string parser *)
(* ================================================================== *)

Module CoordinateString.

Definition is_space (c : ascii) : bool :=
  let n := nat_of_ascii c in
  (Nat.eqb n 32 || (Nat.leb 9 n && Nat.leb n 13))%bool.

Definition is_newline (c : ascii) : bool := Nat.eqb (nat_of_ascii c) 10.

Definition snoc (s : string) (c : ascii) : string :=
  (s ++ String c EmptyString)%string.

(** The lines of a text. *)
Fixpoint split_lines (s : string) (cur : string) : list string :=
  match s with
  | EmptyString => [cur]
  | String c s' =>
      if is_newline c then cur :: split_lines s' EmptyString
      else split_lines s' (snoc cur c)
  end.

(** The whitespace-separated tokens of a line; [cur] is the token being
    read, if any. *)
Fixpoint split_ws (s : string) (cur : option string) : list string :=
  match s with
  | EmptyString => match cur with Some t => [t] | None => [] end
  | String c s' =>
      if is_space c
      then match cur with
           | Some t => t :: split_ws s' None
           | None => split_ws s' None
           end
      else split_ws s' (Some (snoc (match cur with Some t => t | None => EmptyString end) c))
  end.

Definition tokens (line : string) : list string := split_ws line None.

Inductive line_kind : Type :=
| Blank
| UnitsDirective (tok : string)
| Data (toks : list string).

Definition classify (line : string) : line_kind :=
  match tokens line with
  | [] => Blank
  | [kw; tok] => if String.eqb kw "units" then UnitsDirective tok
                 else Data [kw; tok]
  | toks => Data toks
  end.

Definition kinds (text : string) : list line_kind :=
  map classify (split_lines text EmptyString).

Section Parser.

(** Modelled from the spec: what [extract_units] gives for a text without
    a units directive is implementation-defined; it is a parameter here
    ([None] stands for an exception). *)
Variable absent_units : option string.

(** Modelled from the spec: [CoordinateString.extract_units] of the
    missing [parse] module: the token of the first [units <token>]
    directive, lower-cased. *)
Fixpoint first_units (ks : list line_kind) : option string :=
  match ks with
  | [] => absent_units
  | UnitsDirective tok :: _ => Some (Py.lower tok)
  | _ :: t => first_units t
  end.

Definition extract_units (text : string) : Py.result string :=
  match first_units (kinds text) with
  | Some u => Py.Ok u
  | None => Py.Raise (Py.FormatError "no units directive")
  end.

End Parser.

(** Modelled from the spec: [CoordinateString.extract_labels]: the first
    token of every data line, in line order. *)
Fixpoint labels_of (ks : list line_kind) : list string :=
  match ks with
  | [] => []
  | Data (l :: _) :: t => l :: labels_of t
  | _ :: t => labels_of t
  end.

Definition extract_labels (text : string) : list string :=
  labels_of (kinds text).

Definition parse_row (toks : list string) : Py.result (list float) :=
  match toks with
  | _ :: tx :: ty :: tz :: _ =>
      match Fmt.float_of_string tx, Fmt.float_of_string ty, Fmt.float_of_string tz with
      | Some x, Some y, Some z => Py.Ok [x; y; z]
      | _, _, _ => Py.Raise (Py.FormatError "non-numeric coordinate")
      end
  | _ => Py.Raise (Py.FormatError "fewer than 4 tokens")
  end.

(** Modelled from the spec: [CoordinateString.extract_coordinates]: the
    three tokens after the label of every data line, read as numbers;
    [FormatError] on a data line with fewer than four tokens or with a
    non-numeric coordinate token. *)
Fixpoint rows_of (ks : list line_kind) : Py.result (list (list float)) :=
  match ks with
  | [] => Py.Ok []
  | Data toks :: t =>
      match parse_row toks with
      | Py.Ok r =>
          match rows_of t with
          | Py.Ok rs => Py.Ok (r :: rs)
          | Py.Raise e => Py.Raise e
          end
      | Py.Raise e => Py.Raise e
      end
  | _ :: t => rows_of t
  end.

Definition extract_coordinates (text : string) : Py.result (list (list float)) :=
  rows_of (kinds text).

End CoordinateString.

(* ================================================================== *)
(** * class Molecule *)
(* ================================================================== *)

Module Molecule.

(** The attributes of a [Molecule] object.  [coordinates] holds a
    reference to a numpy array; [labels] is a tuple of strings. *)
Record t : Type := mk {
  labels : list string;
  coordinates : Py.ref;
  units : string;
  masses : list float;
  natom : nat
}.

Definition with_units (self : t) (u : string) : t :=
  mk (labels self) (coordinates self) u (masses self) (natom self).

Definition with_coordinates (self : t) (c : Py.ref) : t :=
  mk (labels self) c (units self) (masses self) (natom self).

Section Methods.

(** [atomdata.get_mass]: the static table from atomic symbols to masses,
    [None] for a symbol the table does not know (the lookup raises). *)
Variable get_mass : string -> option float.

(** [physconst.bohr2angstrom]: the fixed bohr-to-angstrom factor. *)
Variable bohr2angstrom : float.

(** [[atomdata.get_mass(label) for label in labels]] *)
Fixpoint get_masses (ls : list string) : Py.result (list float) :=
  match ls with
  | [] => Py.Ok []
  | l :: rest =>
      match get_mass l with
      | None => Py.Raise (Py.LookupError l)
      | Some m =>
          match get_masses rest with
          | Py.Ok ms => Py.Ok (m :: ms)
          | Py.Raise e => Py.Raise e
          end
      end
  end.

Definition valid_units (u : string) : bool :=
  (String.eqb u "angstrom" || String.eqb u "bohr")%bool.

(** [Molecule.__init__(self, labels, coordinates, units)] *)
Definition __init__ (labels : list string) (coordinates : Py.array_like)
    (units : string) : Py.M t :=
  (c <- Py.np_array coordinates ;;
   let u := Py.lower units in
   ms <- Py.lift (get_masses labels) ;;
   let n := List.length labels in
   if valid_units u
   then Py.ret (mk labels c u ms n)
   else Py.raise (Py.ValueError "Units must be 'angstrom' or 'bohr'."))%py.

(** The default value of the [units] parameter. *)
Definition default_units : string := "angstrom".

(** Elementwise in-place scaling of an array ([a *= c], [a /= c]). *)
Definition imul (r : Py.ref) (c : float) : Py.M unit :=
  (a <- Py.deref r ;; Py.store r (map (map (fun x => (x * c)%float)) a))%py.

Definition idiv (r : Py.ref) (c : float) : Py.M unit :=
  (a <- Py.deref r ;; Py.store r (map (map (fun x => (x / c)%float)) a))%py.

(** [Molecule.set_units(self, units)]; the result is [self] after the
    call. *)
Definition set_units (self : t) (target : string) : Py.M t :=
  if (String.eqb target "angstrom" && String.eqb (units self) "bohr")%bool
  then (let self' := with_units self "angstrom" in
        imul (coordinates self') bohr2angstrom ;;; Py.ret self')%py
  else if (String.eqb target "bohr" && String.eqb (units self) "angstrom")%bool
  then (let self' := with_units self "bohr" in
        idiv (coordinates self') bohr2angstrom ;;; Py.ret self')%py
  else Py.ret self.

(** [Molecule.__iter__(self)]: the pairs [zip(self.labels,
    self.coordinates)] yields, in order. *)
Definition __iter__ (self : t) : Py.M (list (string * list float)) :=
  (a <- Py.deref (coordinates self) ;; Py.ret (Py.zip (labels self) a))%py.

(** One application of the row format
    ["{:2s} {: >15.10f} {: >15.10f} {: >15.10f}\n"] to [label, *coords]. *)
Definition format_row (label : string) (coords : list float) : Py.result string :=
  match coords with
  | x :: y :: z :: _ =>
      Py.Ok (Py.ljust 2 label ++ " " ++ Fmt.fmt_coord x ++ " " ++ Fmt.fmt_coord y
             ++ " " ++ Fmt.fmt_coord z ++ String (ascii_of_nat 10) EmptyString)%string
  | _ => Py.Raise (Py.IndexError "Replacement index out of range for positional args tuple")
  end.

Fixpoint format_rows (ret : string) (items : list (string * list float)) : Py.result string :=
  match items with
  | [] => Py.Ok ret
  | (label, coords) :: rest =>
      match format_row label coords with
      | Py.Ok line => format_rows (ret ++ line)%string rest
      | Py.Raise e => Py.Raise e
      end
  end.

(** [Molecule.__str__(self)] *)
Definition __str__ (self : t) : Py.M string :=
  (let ret := ("units " ++ units self ++ String (ascii_of_nat 10) EmptyString)%string in
   items <- __iter__ self ;;
   Py.lift (format_rows ret items))%py.

(** [Molecule.copy(self)] *)
Definition copy (self : t) : Py.M t :=
  (c <- Py.ndarray_copy (coordinates self) ;;
   __init__ (labels self) (Py.NdArray c) (units self))%py.

(** [Molecule.set_coordinates(self, coordinates, units=None)]; the result
    is [self] after the call.  The array is stored by reference. *)
Definition set_coordinates (self : t) (coordinates : Py.ref)
    (units : option string) : Py.M t :=
  let units := match units with None => Molecule.units self | Some u => u end in
  let self := with_units self units in
  Py.ret (with_coordinates self coordinates).

Section FromString.

Variable absent_units : option string.

(** [Molecule.from_coord_string(cls, coord_string, units)] *)
Definition from_coord_string (coord_string : string) (units : string) : Py.M t :=
  (let labels := CoordinateString.extract_labels coord_string in
   coordinates <- Py.lift (CoordinateString.extract_coordinates coord_string) ;;
   __init__ labels (Py.Nested coordinates) units)%py.

(** [Molecule.from_string(cls, mol_str)] *)
Definition from_string (mol_str : string) : Py.M t :=
  (units <- Py.lift (CoordinateString.extract_units absent_units mol_str) ;;
   from_coord_string mol_str units)%py.

End FromString.

End Methods.

End Molecule.

(* ================================================================== *)
(** * Well-formed objects and example data *)
(* ================================================================== *)

Module Examples.

Definition nl : string := String (ascii_of_nat 10) EmptyString.

(** The water molecule of the module's [__main__] block. *)
Definition water_text : string :=
  (nl ++ "units angstrom" ++ nl
   ++ "  O  0.0000000000  0.0000000000 -0.0647162893" ++ nl
   ++ "  H  0.0000000000 -0.7490459967  0.5135472375" ++ nl
   ++ "  H  0.0000000000  0.7490459967  0.5135472375" ++ nl)%string.

Definition water_labels : list string := ["O"; "H"; "H"]%string.

Definition water_coordinates : Py.ndarray :=
  [[0; 0; -0.0647162893];
   [0; -0.7490459967; 0.5135472375];
   [0; 0.7490459967; 0.5135472375]]%float.

(** A mass table knowing hydrogen and oxygen, and a value of the
    bohr-to-angstrom factor, for evaluating the model on concrete inputs. *)
Definition mass_table (symbol : string) : option float :=
  if String.eqb symbol "H" then Some 1.00782503207%float
  else if String.eqb symbol "O" then Some 15.99491461956%float
  else None.

Definition bohr2angstrom : float := 0.52917720859%float.

(** The object [Molecule(water_labels, water_coordinates)] in a heap
    holding its array alone. *)
Definition water : Molecule.t :=
  Molecule.mk water_labels 0 "angstrom"
    [15.99491461956; 1.00782503207; 1.00782503207]%float 3.

Definition water_heap : Py.heap := [water_coordinates].

End Examples.

Module Invariant.

Section WF.

Variable get_mass : string -> option float.

(** What [__init__] establishes about an object and no method breaks:
    the coordinate array is a live object, the masses are those of the
    labels, and [natom] counts the labels. *)
Definition wf (h : Py.heap) (m : Molecule.t) : Prop :=
  Py.live h (Molecule.coordinates m)
  /\ Molecule.get_masses get_mass (Molecule.labels m) = Py.Ok (Molecule.masses m)
  /\ Molecule.natom m = List.length (Molecule.labels m).

(** One coordinate row per label. *)
Definition one_row_per_label (h : Py.heap) (m : Molecule.t) : Prop :=
  Py.nrows h (Molecule.coordinates m) = Some (List.length (Molecule.labels m)).

End WF.

End Invariant.

(* ================================================================== *)
(** * Properties: heap and string basics *)
(* ================================================================== *)

Module PyFacts.

Lemma length_update {A} (l : list A) i x :
  List.length (Py.update l i x) = List.length l.
Proof.
  revert i; induction l as [|y t IH]; intros [|i]; simpl; auto.
Qed.

Lemma nth_error_update_eq {A} (l : list A) i x :
  i < List.length l -> nth_error (Py.update l i x) i = Some x.
Proof.
  revert i; induction l as [|y t IH]; intros [|i] H; simpl in *; try lia; auto.
  apply IH; lia.
Qed.

Lemma nth_error_update_neq {A} (l : list A) i j x :
  i <> j -> nth_error (Py.update l i x) j = nth_error l j.
Proof.
  revert i j; induction l as [|y t IH]; intros [|i] [|j] H; simpl; auto.
  congruence.
Qed.

Lemma nth_error_snoc_old {A} (l : list A) x i :
  i < List.length l -> nth_error (l ++ [x]) i = nth_error l i.
Proof. intros H. now rewrite nth_error_app1. Qed.

Lemma nth_error_snoc_new {A} (l : list A) x :
  nth_error (l ++ [x]) (List.length l) = Some x.
Proof. rewrite nth_error_app2, Nat.sub_diag by lia. reflexivity. Qed.

Lemma live_nth_error (h : Py.heap) r :
  Py.live h r -> exists a, nth_error h r = Some a.
Proof.
  unfold Py.live; intros H.
  destruct (nth_error h r) eqn:E; eauto.
  apply nth_error_None in E; lia.
Qed.

Lemma nth_error_live (h : Py.heap) r a :
  nth_error h r = Some a -> Py.live h r.
Proof.
  unfold Py.live; intros H. apply nth_error_Some. congruence.
Qed.

Lemma np_array_ok h x :
  Py.array_like_ok h x ->
  exists a, Py.np_array x h = (Py.Ok (List.length h), h ++ [a]).
Proof.
  destruct x as [rows|r]; simpl; intros H.
  - eexists; reflexivity.
  - destruct (live_nth_error _ _ H) as [a Ha].
    exists a. unfold Py.bind, Py.deref. rewrite Ha. reflexivity.
Qed.

End PyFacts.

Module MoleculeFacts.

Lemma valid_units_true u :
  Molecule.valid_units u = true <-> u = "angstrom"%string \/ u = "bohr"%string.
Proof.
  unfold Molecule.valid_units. rewrite orb_true_iff, !String.eqb_eq. tauto.
Qed.

Lemma valid_units_false u :
  Molecule.valid_units u = false <-> u <> "angstrom"%string /\ u <> "bohr"%string.
Proof.
  unfold Molecule.valid_units. rewrite orb_false_iff, !String.eqb_neq. tauto.
Qed.

Section Facts.

Variable get_mass : string -> option float.
Variable bohr2angstrom : float.

Lemma get_masses_known ls :
  Forall (fun l => get_mass l <> None) ls ->
  exists ms, Molecule.get_masses get_mass ls = Py.Ok ms
             /\ List.length ms = List.length ls.
Proof.
  induction 1 as [|l ls Hl _ [ms [IH Hlen]]]; simpl.
  - exists []; auto.
  - destruct (get_mass l) as [m|]; [|congruence].
    rewrite IH. exists (m :: ms); simpl; auto.
Qed.

Lemma get_masses_length ls ms :
  Molecule.get_masses get_mass ls = Py.Ok ms -> List.length ms = List.length ls.
Proof.
  revert ms; induction ls as [|l ls IH]; simpl; intros ms H.
  - inversion H; reflexivity.
  - destruct (get_mass l); [|discriminate].
    destruct (Molecule.get_masses get_mass ls); [|discriminate].
    inversion H; simpl; f_equal; auto.
Qed.

Lemma get_masses_all_known ls ms :
  Molecule.get_masses get_mass ls = Py.Ok ms ->
  Forall (fun l => get_mass l <> None) ls.
Proof.
  revert ms; induction ls as [|l ls IH]; simpl; intros ms H; constructor.
  - destruct (get_mass l); [discriminate|discriminate].
  - destruct (get_mass l); [|discriminate].
    destruct (Molecule.get_masses get_mass ls) eqn:E; [|discriminate]. eauto.
Qed.

(** The list comprehension stops at the first unknown symbol. *)
Lemma get_masses_unknown ls :
  Exists (fun l => get_mass l = None) ls ->
  exists l, In l ls /\ get_mass l = None
            /\ Molecule.get_masses get_mass ls = Py.Raise (Py.LookupError l).
Proof.
  induction ls as [|l ls IH]; intros H; [inversion H|].
  simpl. destruct (get_mass l) as [m|] eqn:E.
  - inversion H as [? ? H0|? ? H0]; subst; [congruence|].
    destruct (IH H0) as [l' [Hin [Hn Hr]]].
    exists l'. rewrite Hr. auto.
  - exists l. auto.
Qed.

(** The constructor, step by step, on live input. *)
Lemma init_eval labels coords units h :
  Py.array_like_ok h coords ->
  exists a,
    Molecule.__init__ get_mass labels coords units h =
    (match Molecule.get_masses get_mass labels with
     | Py.Ok ms =>
         if Molecule.valid_units (Py.lower units)
         then Py.Ok (Molecule.mk labels (List.length h) (Py.lower units) ms
                       (List.length labels))
         else Py.Raise (Py.ValueError "Units must be 'angstrom' or 'bohr'.")
     | Py.Raise e => Py.Raise e
     end, h ++ [a])
    /\ match coords with
       | Py.Nested rows => a = rows
       | Py.NdArray r => nth_error h r = Some a
       end.
Proof.
  intros Hok. unfold Molecule.__init__, Py.bind.
  destruct coords as [rows|r]; simpl in *.
  - exists rows. split; [|reflexivity].
    unfold Py.lift.
    destruct (Molecule.get_masses get_mass labels); [|reflexivity].
    destruct (Molecule.valid_units (Py.lower units)); reflexivity.
  - destruct (PyFacts.live_nth_error _ _ Hok) as [a Ha].
    exists a. split; [|assumption].
    unfold Py.deref, Py.bind. rewrite Ha. simpl. unfold Py.lift.
    destruct (Molecule.get_masses get_mass labels); [|reflexivity].
    destruct (Molecule.valid_units (Py.lower units)); reflexivity.
Qed.

End Facts.

End MoleculeFacts.

(* ================================================================== *)
(** * Properties of the constructor and of the setters *)
(* ================================================================== *)

Section Construction.

Variable get_mass : string -> option float.

(** C3. When every label is known to the mass table, the constructor
    lower-cases the units argument; it returns an object storing the
    lower-cased value when that value is "angstrom" or "bohr", and raises
    the ValueError of line 49 for every other units string. *)
Theorem init_succeeds_iff_units_valid labels coords units h :
  Forall (fun l => get_mass l <> None) labels ->
  Py.array_like_ok h coords ->
  let u := Py.lower units in
  let r := fst (Molecule.__init__ get_mass labels coords units h) in
  (u = "angstrom"%string \/ u = "bohr"%string ->
   exists m, r = Py.Ok m /\ Molecule.units m = u /\ Molecule.labels m = labels)
  /\ (~ (u = "angstrom"%string \/ u = "bohr"%string) ->
      r = Py.Raise (Py.ValueError "Units must be 'angstrom' or 'bohr'.")).
Proof.
  intros Hknown Hok u r.
  destruct (MoleculeFacts.init_eval get_mass labels coords units h Hok) as [a [E _]].
  destruct (MoleculeFacts.get_masses_known get_mass labels Hknown) as [ms [Hms _]].
  subst r. rewrite E, Hms. simpl. fold u.
  split; intros Hu.
  - apply MoleculeFacts.valid_units_true in Hu. rewrite Hu.
    eexists; split; [reflexivity|]. simpl. auto.
  - destruct (Molecule.valid_units u) eqn:V; [|reflexivity].
    apply MoleculeFacts.valid_units_true in V. contradiction.
Qed.

(** C10. The masses are looked up before the units are checked: when some
    label is unknown to the mass table, construction raises the lookup
    error of the first unknown label whatever the units argument is, and
    never the ValueError of the units check. *)
Theorem init_unknown_symbol_precedes_units_check labels coords units h :
  Exists (fun l => get_mass l = None) labels ->
  Py.array_like_ok h coords ->
  let r := fst (Molecule.__init__ get_mass labels coords units h) in
  (exists l, In l labels /\ get_mass l = None
             /\ r = Py.Raise (Py.LookupError l))
  /\ forall msg, r <> Py.Raise (Py.ValueError msg).
Proof.
  intros Hex Hok r.
  destruct (MoleculeFacts.init_eval get_mass labels coords units h Hok) as [a [E _]].
  destruct (MoleculeFacts.get_masses_unknown get_mass labels Hex) as [l [Hin [Hn Hr]]].
  subst r. rewrite E, Hr. simpl. split.
  - exists l. auto.
  - intros msg; discriminate.
Qed.

End Construction.

Section Setters.

Variable bohr2angstrom : float.


(** C5. A target that is neither "angstrom" nor "bohr" is ignored:
    [set_units] raises nothing and leaves the object and the heap (so the
    coordinate values) as they were. *)
Theorem set_units_unrecognised_target_noop m target h :
  target <> "angstrom"%string -> target <> "bohr"%string ->
  Molecule.set_units bohr2angstrom m target h = (Py.Ok m, h).
Proof.
  intros H1 H2. unfold Molecule.set_units.
  apply String.eqb_neq in H1, H2. rewrite H1, H2. reflexivity.
Qed.

End Setters.

(** C8. [set_coordinates] stores the given array as the coordinates.
    Without a units argument the units stay; with one they become that
    argument.  Labels, masses and the atom count stay, and no array of the
    heap is touched, so no coordinate value is converted. *)
Theorem set_coordinates_replaces m c h :
  Molecule.set_coordinates m c None h =
  (Py.Ok (Molecule.mk (Molecule.labels m) c (Molecule.units m)
            (Molecule.masses m) (Molecule.natom m)), h)
  /\ forall u,
    Molecule.set_coordinates m c (Some u) h =
    (Py.Ok (Molecule.mk (Molecule.labels m) c u
              (Molecule.masses m) (Molecule.natom m)), h).
Proof. split; [|intros u]; reflexivity. Qed.

(** C9. [set_coordinates] with a units argument never raises and stores
    the argument verbatim, neither lower-cased nor validated: afterwards
    the units attribute can be a string such as "meters" or "Bohr" that
    is none of the two valid literals. *)
Theorem set_coordinates_units_unvalidated m c h :
  (forall u, exists m',
      Molecule.set_coordinates m c (Some u) h = (Py.Ok m', h)
      /\ Molecule.units m' = u)
  /\ (exists m', Molecule.set_coordinates m c (Some "meters"%string) h = (Py.Ok m', h)
                 /\ Molecule.valid_units (Molecule.units m') = false)
  /\ (exists m', Molecule.set_coordinates m c (Some "Bohr"%string) h = (Py.Ok m', h)
                 /\ Molecule.units m' = "Bohr"%string
                 /\ Molecule.valid_units (Molecule.units m') = false).
Proof.
  split; [|split].
  - intros u. eexists; split; reflexivity.
  - eexists; split; reflexivity.
  - eexists; repeat split; reflexivity.
Qed.

(* ================================================================== *)
(** * Properties of [copy] and of the counting invariant *)
(* ================================================================== *)

Module CopyFacts.

Section Facts.

Variable get_mass : string -> option float.
Variable bohr2angstrom : float.

Lemma lower_valid_units u :
  Molecule.valid_units u = true -> Py.lower u = u.
Proof.
  intros H. apply MoleculeFacts.valid_units_true in H.
  destruct H; subst; reflexivity.
Qed.

(** [copy] allocates two arrays: the one [ndarray.copy] returns and the
    one [np.array] makes of it in the constructor. *)
Lemma copy_eval m h a :
  nth_error h (Molecule.coordinates m) = Some a ->
  Molecule.copy get_mass m h =
  (match Molecule.get_masses get_mass (Molecule.labels m) with
   | Py.Ok ms =>
       if Molecule.valid_units (Py.lower (Molecule.units m))
       then Py.Ok (Molecule.mk (Molecule.labels m) (S (List.length h))
                     (Py.lower (Molecule.units m)) ms
                     (List.length (Molecule.labels m)))
       else Py.Raise (Py.ValueError "Units must be 'angstrom' or 'bohr'.")
   | Py.Raise e => Py.Raise e
   end, (h ++ [a]) ++ [a]).
Proof.
  intros Ha. unfold Molecule.copy, Py.ndarray_copy, Py.bind at 1 2, Py.deref.
  rewrite Ha. unfold Py.alloc at 1.
  assert (Hok : Py.array_like_ok (h ++ [a]) (Py.NdArray (List.length h))).
  { simpl. unfold Py.live. rewrite length_app. simpl. lia. }
  destruct (MoleculeFacts.init_eval get_mass (Molecule.labels m)
              (Py.NdArray (List.length h)) (Molecule.units m) (h ++ [a]) Hok)
    as [a' [E Ha']].
  rewrite PyFacts.nth_error_snoc_new in Ha'. inversion Ha'; subst a'.
  rewrite E. rewrite length_app. simpl.
  replace (List.length h + 1) with (S (List.length h)) by lia.
  reflexivity.
Qed.

Lemma copy_ok_live m h m' h' :
  Molecule.copy get_mass m h = (Py.Ok m', h') ->
  exists a, nth_error h (Molecule.coordinates m) = Some a.
Proof.
  unfold Molecule.copy, Py.ndarray_copy, Py.bind at 1 2, Py.deref.
  destruct (nth_error h (Molecule.coordinates m)) as [a|]; [eauto|discriminate].
Qed.

Lemma set_units_cases m target h :
  (Molecule.set_units bohr2angstrom m target h = (Py.Ok m, h))
  \/ (exists u f a,
         nth_error h (Molecule.coordinates m) = Some a
         /\ Molecule.set_units bohr2angstrom m target h =
            (Py.Ok (Molecule.with_units m u),
             Py.update h (Molecule.coordinates m) (map (map f) a)))
  \/ (~ Py.live h (Molecule.coordinates m)
      /\ fst (Molecule.set_units bohr2angstrom m target h) = Py.Raise Py.SystemError).
Proof.
  unfold Molecule.set_units.
  destruct (nth_error h (Molecule.coordinates m)) as [a|] eqn:Ha.
  - pose proof (PyFacts.nth_error_live _ _ _ Ha) as Hlive.
    assert (Hlt : Nat.ltb (Molecule.coordinates m) (List.length h) = true)
      by (apply Nat.ltb_lt; exact Hlive).
    destruct (String.eqb target "angstrom" && String.eqb (Molecule.units m) "bohr")%bool.
    + right; left. eexists _, _, a. split; [reflexivity|].
      unfold Molecule.imul, Py.bind, Py.deref, Py.store. simpl.
      rewrite Ha, Hlt. reflexivity.
    + destruct (String.eqb target "bohr" && String.eqb (Molecule.units m) "angstrom")%bool.
      * right; left. eexists _, _, a. split; [reflexivity|].
        unfold Molecule.idiv, Py.bind, Py.deref, Py.store. simpl.
        rewrite Ha, Hlt. reflexivity.
      * left; reflexivity.
  - assert (Hn : ~ Py.live h (Molecule.coordinates m)).
    { intros Hl. destruct (PyFacts.live_nth_error _ _ Hl); congruence. }
    destruct (String.eqb target "angstrom" && String.eqb (Molecule.units m) "bohr")%bool.
    + right; right. split; [exact Hn|].
      unfold Molecule.imul, Py.bind, Py.deref. simpl. rewrite Ha. reflexivity.
    + destruct (String.eqb target "bohr" && String.eqb (Molecule.units m) "angstrom")%bool.
      * right; right. split; [exact Hn|].
        unfold Molecule.idiv, Py.bind, Py.deref. simpl. rewrite Ha. reflexivity.
      * left; reflexivity.
Qed.

Lemma nrows_update_map h r (f : list float -> list float) a :
  nth_error h r = Some a ->
  Py.nrows (Py.update h r (map f a)) r = Py.nrows h r.
Proof.
  intros Ha. unfold Py.nrows.
  rewrite PyFacts.nth_error_update_eq by (eapply PyFacts.nth_error_live; eauto).
  unfold Py.heap, Py.ndarray in *.
  rewrite Ha. simpl. now rewrite length_map.
Qed.

Lemma format_rows_heap_free ret items :
  forall h, snd (Py.lift (Molecule.format_rows ret items) h) = h.
Proof. reflexivity. Qed.

Lemma iter_heap m h : snd (Molecule.__iter__ m h) = h.
Proof.
  unfold Molecule.__iter__, Py.bind, Py.deref.
  destruct (nth_error h (Molecule.coordinates m)); reflexivity.
Qed.

Lemma str_heap m h : snd (Molecule.__str__ m h) = h.
Proof.
  unfold Molecule.__str__, Py.bind.
  pose proof (iter_heap m h) as Hi.
  destruct (Molecule.__iter__ m h) as [[items|e] h0]; simpl in *; subst; reflexivity.
Qed.

End Facts.

End CopyFacts.

Section CountsAndCopy.

Variable get_mass : string -> option float.
Variable bohr2angstrom : float.

(** X16. A successfully constructed Molecule has as many masses as
    labels and [natom] equal to that count, and its coordinate array has
    as many rows as the constructor's coordinates argument.  [set_units]
    and [copy] keep the labels, the number of masses and the number of
    rows; iteration and stringification change no object.  That the
    rows are as many as the labels is not part of this: the constructor
    does not establish it. *)
Theorem counts_established_and_preserved :
  (forall labels coords units h m h',
      Molecule.__init__ get_mass labels coords units h = (Py.Ok m, h') ->
      List.length (Molecule.labels m) = List.length labels
      /\ List.length (Molecule.masses m) = List.length labels
      /\ Molecule.natom m = List.length labels
      /\ Py.nrows h' (Molecule.coordinates m) = Py.array_like_rows h coords)
  /\ (forall m target h m' h',
         Molecule.set_units bohr2angstrom m target h = (Py.Ok m', h') ->
         Molecule.labels m' = Molecule.labels m
         /\ Molecule.masses m' = Molecule.masses m
         /\ Molecule.natom m' = Molecule.natom m
         /\ Py.nrows h' (Molecule.coordinates m')
            = Py.nrows h (Molecule.coordinates m))
  /\ (forall m h m' h',
         Molecule.copy get_mass m h = (Py.Ok m', h') ->
         Molecule.labels m' = Molecule.labels m
         /\ List.length (Molecule.masses m') = List.length (Molecule.labels m)
         /\ Molecule.natom m' = List.length (Molecule.labels m)
         /\ Py.nrows h' (Molecule.coordinates m')
            = Py.nrows h (Molecule.coordinates m)
         /\ Py.nrows h' (Molecule.coordinates m)
            = Py.nrows h (Molecule.coordinates m))
  /\ (forall m h,
         snd (Molecule.__iter__ m h) = h /\ snd (Molecule.__str__ m h) = h).
Proof.
  split; [|split; [|split]].
  - intros labels coords units h m h' H.
    assert (Hok : Py.array_like_ok h coords).
    { destruct coords as [rows|r]; simpl; [exact I|].
      unfold Molecule.__init__, Py.bind at 1, Py.np_array, Py.bind at 1, Py.deref in H.
      destruct (nth_error h r) eqn:E; [|discriminate].
      eapply PyFacts.nth_error_live; eauto. }
    destruct (MoleculeFacts.init_eval get_mass labels coords units h Hok) as [a [E Ha]].
    rewrite E in H.
    destruct (Molecule.get_masses get_mass labels) as [ms|] eqn:Hms; [|discriminate].
    destruct (Molecule.valid_units (Py.lower units)); [|discriminate].
    inversion H; subst m h'; simpl.
    repeat split.
    + eapply MoleculeFacts.get_masses_length; eauto.
    + unfold Py.nrows. rewrite PyFacts.nth_error_snoc_new. simpl.
      destruct coords as [rows|r]; simpl.
      * now subst a.
      * unfold Py.nrows. unfold Py.heap, Py.ndarray in *. rewrite Ha. reflexivity.
  - intros m target h m' h' H.
    destruct (CopyFacts.set_units_cases bohr2angstrom m target h)
      as [E|[[u [f [a [Ha E]]]]|[_ E]]]; rewrite ?E in H.
    + inversion H; subst; auto.
    + inversion H; subst; simpl. repeat split.
      apply CopyFacts.nrows_update_map; assumption.
    + rewrite H in E. discriminate.
  - intros m h m' h' H.
    destruct (CopyFacts.copy_ok_live get_mass _ _ _ _ H) as [a Ha].
    rewrite (CopyFacts.copy_eval get_mass m h a Ha) in H.
    destruct (Molecule.get_masses get_mass (Molecule.labels m)) as [ms|] eqn:Hms;
      [|discriminate].
    destruct (Molecule.valid_units (Py.lower (Molecule.units m))); [|discriminate].
    pose proof (PyFacts.nth_error_live _ _ _ Ha) as Hlive. unfold Py.live in Hlive.
    inversion H; subst m' h'; simpl. repeat split.
    + eapply MoleculeFacts.get_masses_length; eauto.
    + unfold Py.nrows.
      replace (S (List.length h)) with (List.length (h ++ [a]))
        by (rewrite length_app; simpl; lia).
      rewrite PyFacts.nth_error_snoc_new.
      unfold Py.heap, Py.ndarray in *. rewrite Ha. reflexivity.
    + unfold Py.nrows.
      rewrite !PyFacts.nth_error_snoc_old; auto.
      rewrite length_app; simpl; lia.
  - intros m h. split.
    + apply CopyFacts.iter_heap.
    + apply CopyFacts.str_heap.
Qed.

(** X17. For a Molecule whose units attribute is one of the two valid
    literals, as the class docstring says it is, [copy] returns an object
    with the same labels, units and masses whose coordinates are a new
    array object holding the same values; every array that existed before
    is unchanged, and writing an entry of the copy's array leaves the
    original's array as it was. *)
Theorem copy_is_independent m h a :
  Invariant.wf get_mass h m ->
  nth_error h (Molecule.coordinates m) = Some a ->
  Molecule.valid_units (Molecule.units m) = true ->
  exists m' h',
    Molecule.copy get_mass m h = (Py.Ok m', h')
    /\ Molecule.labels m' = Molecule.labels m
    /\ Molecule.units m' = Molecule.units m
    /\ Molecule.masses m' = Molecule.masses m
    /\ ~ Py.live h (Molecule.coordinates m')
    /\ Molecule.coordinates m' <> Molecule.coordinates m
    /\ nth_error h' (Molecule.coordinates m') = Some a
    /\ (forall r, Py.live h r -> nth_error h' r = nth_error h r)
    /\ (forall i j v r h'',
           Py.setitem (Molecule.coordinates m') i j v h' = (r, h'') ->
           nth_error h'' (Molecule.coordinates m) = Some a).
Proof.
  intros [Hlive [Hms Hn]] Ha Hv.
  rewrite (CopyFacts.copy_eval get_mass m h a Ha), Hms.
  rewrite (CopyFacts.lower_valid_units _ Hv), Hv.
  unfold Py.live in Hlive.
  eexists _, _. split; [reflexivity|]. simpl.
  assert (Hnew : nth_error ((h ++ [a]) ++ [a]) (S (List.length h)) = Some a).
  { replace (S (List.length h)) with (List.length (h ++ [a]))
      by (rewrite length_app; simpl; lia).
    apply PyFacts.nth_error_snoc_new. }
  assert (Hold : forall r, Py.live h r ->
                           nth_error ((h ++ [a]) ++ [a]) r = nth_error h r).
  { intros r Hr. unfold Py.live in Hr.
    rewrite !PyFacts.nth_error_snoc_old; auto.
    rewrite length_app; simpl; lia. }
  repeat split; auto.
  - unfold Py.live. lia.
  - lia.
  - intros i j v r h'' Hset. unfold Py.setitem in Hset.
    rewrite Hnew in Hset.
    destruct (nth_error a i) as [row|].
    + destruct (Nat.ltb j (List.length row)).
      * inversion Hset; subst.
        rewrite PyFacts.nth_error_update_neq by lia.
        rewrite Hold by exact Hlive. exact Ha.
      * inversion Hset; subst. rewrite Hold by exact Hlive. exact Ha.
    + inversion Hset; subst. rewrite Hold by exact Hlive. exact Ha.
Qed.

(** The invariant [wf] is what the constructor establishes ... *)
Lemma init_wf labels coords units h m h' :
  Molecule.__init__ get_mass labels coords units h = (Py.Ok m, h') ->
  Invariant.wf get_mass h' m /\ Molecule.valid_units (Molecule.units m) = true.
Proof.
  intros H.
  assert (Hok : Py.array_like_ok h coords).
  { destruct coords as [rows|r]; simpl; [exact I|].
    unfold Molecule.__init__, Py.bind at 1, Py.np_array, Py.bind at 1, Py.deref in H.
    destruct (nth_error h r) eqn:E; [|discriminate].
    eapply PyFacts.nth_error_live; eauto. }
  destruct (MoleculeFacts.init_eval get_mass labels coords units h Hok) as [a [E Ha]].
  rewrite E in H.
  destruct (Molecule.get_masses get_mass labels) as [ms|] eqn:Hms; [|discriminate].
  destruct (Molecule.valid_units (Py.lower units)) eqn:V; [|discriminate].
  inversion H; subst m h'; simpl. split; [|exact V].
  unfold Invariant.wf, Py.live; simpl. rewrite length_app; simpl.
  repeat split; auto. lia.
Qed.

(** ... and what [set_units] and [set_coordinates] keep. *)
Lemma set_units_wf m target h m' h' :
  Invariant.wf get_mass h m ->
  Molecule.set_units bohr2angstrom m target h = (Py.Ok m', h') ->
  Invariant.wf get_mass h' m'.
Proof.
  intros [Hlive [Hms Hn]] H.
  destruct (CopyFacts.set_units_cases bohr2angstrom m target h)
    as [E|[[u [f [a [Ha E]]]]|[Hd _]]]; rewrite ?E in H.
  - inversion H; subst. repeat split; auto.
  - inversion H; subst. unfold Invariant.wf, Py.live in *. simpl.
    rewrite PyFacts.length_update. auto.
  - contradiction.
Qed.

Lemma set_coordinates_wf m c u h m' h' :
  Invariant.wf get_mass h m -> Py.live h c ->
  Molecule.set_coordinates m c u h = (Py.Ok m', h') ->
  Invariant.wf get_mass h' m'.
Proof.
  intros [Hlive [Hms Hn]] Hc H. inversion H; subst.
  unfold Invariant.wf. simpl. auto.
Qed.

End CountsAndCopy.

(* ================================================================== *)
(** * The properties on concrete molecules *)
(* ================================================================== *)

Lemma water_labels_known :
  Forall (fun l => Examples.mass_table l <> None) Examples.water_labels.
Proof. repeat constructor; discriminate. Defined.

Lemma water_wf : Invariant.wf Examples.mass_table Examples.water_heap Examples.water.
Proof.
  unfold Invariant.wf, Py.live. simpl. repeat split. constructor.
Defined.

(** The constructor on the water molecule, with units given as
    "Angstrom" and as "meters". *)
Lemma init_succeeds_iff_units_valid_witness :
  Forall (fun l => Examples.mass_table l <> None) Examples.water_labels
  /\ Py.array_like_ok [] (Py.Nested Examples.water_coordinates)
  /\ (exists m,
         fst (Molecule.__init__ Examples.mass_table Examples.water_labels
                (Py.Nested Examples.water_coordinates) "Angstrom" [])
         = Py.Ok m
         /\ Molecule.units m = Py.lower "Angstrom"
         /\ Molecule.labels m = Examples.water_labels)
  /\ fst (Molecule.__init__ Examples.mass_table Examples.water_labels
            (Py.Nested Examples.water_coordinates) "meters" [])
     = Py.Raise (Py.ValueError "Units must be 'angstrom' or 'bohr'.").
Proof.
  split; [exact water_labels_known|]. split; [exact I|]. split.
  - apply (init_succeeds_iff_units_valid Examples.mass_table Examples.water_labels
             (Py.Nested Examples.water_coordinates) "Angstrom" []
             water_labels_known I).
    left; reflexivity.
  - apply (init_succeeds_iff_units_valid Examples.mass_table Examples.water_labels
             (Py.Nested Examples.water_coordinates) "meters" []
             water_labels_known I).
    intros [H|H]; discriminate H.
Defined.

(** An unknown symbol "Xx" together with the invalid units "meters". *)
Lemma init_unknown_symbol_precedes_units_check_witness :
  Exists (fun l => Examples.mass_table l = None) ["O"; "Xx"; "H"]%string
  /\ Py.array_like_ok [] (Py.Nested Examples.water_coordinates)
  /\ exists l,
      In l ["O"; "Xx"; "H"]%string /\ Examples.mass_table l = None
      /\ fst (Molecule.__init__ Examples.mass_table ["O"; "Xx"; "H"]%string
                (Py.Nested Examples.water_coordinates) "meters" [])
         = Py.Raise (Py.LookupError l).
Proof.
  assert (Hex : Exists (fun l => Examples.mass_table l = None) ["O"; "Xx"; "H"]%string)
    by (apply Exists_cons_tl; apply Exists_cons_hd; reflexivity).
  split; [exact Hex|]. split; [exact I|].
  exact (proj1 (init_unknown_symbol_precedes_units_check Examples.mass_table
                  ["O"; "Xx"; "H"]%string (Py.Nested Examples.water_coordinates)
                  "meters" [] Hex I)).
Defined.


Lemma set_units_unrecognised_target_noop_witness :
  "meters"%string <> "angstrom"%string /\ "meters"%string <> "bohr"%string
  /\ Molecule.set_units Examples.bohr2angstrom Examples.water "meters"
       Examples.water_heap
     = (Py.Ok Examples.water, Examples.water_heap).
Proof.
  assert (H1 : "meters"%string <> "angstrom"%string) by discriminate.
  assert (H2 : "meters"%string <> "bohr"%string) by discriminate.
  split; [exact H1|]. split; [exact H2|].
  exact (set_units_unrecognised_target_noop Examples.bohr2angstrom Examples.water
           "meters" Examples.water_heap H1 H2).
Defined.

(** C4. The constructor accepts two labels with a single coordinate row:
    it returns an object with two labels, two masses and an array of one
    row, although the class docstring calls [coordinates] an
    [natoms x 3] array corresponding to the atoms in [labels]. *)
Lemma init_accepts_mismatched_rows :
  exists m h',
    Molecule.__init__ Examples.mass_table ["O"; "H"]%string
      (Py.Nested [[0; 0; 0]]%float) "angstrom" [] = (Py.Ok m, h')
    /\ List.length (Molecule.labels m) = 2
    /\ List.length (Molecule.masses m) = 2
    /\ Py.nrows h' (Molecule.coordinates m) = Some 1.
Proof. eexists _, _. repeat split. Qed.

Lemma counts_established_and_preserved_witness :
  exists m h',
    Molecule.__init__ Examples.mass_table Examples.water_labels
      (Py.Nested Examples.water_coordinates) "angstrom" [] = (Py.Ok m, h')
    /\ List.length (Molecule.labels m) = 3
    /\ List.length (Molecule.masses m) = 3
    /\ Molecule.natom m = 3
    /\ Py.nrows h' (Molecule.coordinates m) = Some 3.
Proof.
  eexists _, _. split; [reflexivity|].
  exact (proj1 (counts_established_and_preserved Examples.mass_table
                  Examples.bohr2angstrom)
           Examples.water_labels (Py.Nested Examples.water_coordinates)
           "angstrom"%string [] _ _ eq_refl).
Defined.

(** C7. After [set_coordinates] has stored the units "meters", which the
    constructor refuses and the class docstring excludes, [copy] raises
    the ValueError of the constructor instead of returning a copy. *)
Lemma copy_raises_after_unvalidated_units :
  exists m0 h0 m1,
    Molecule.__init__ Examples.mass_table Examples.water_labels
      (Py.Nested Examples.water_coordinates) "angstrom" [] = (Py.Ok m0, h0)
    /\ Molecule.set_coordinates m0 (Molecule.coordinates m0) (Some "meters"%string) h0
       = (Py.Ok m1, h0)
    /\ fst (Molecule.copy Examples.mass_table m1 h0)
       = Py.Raise (Py.ValueError "Units must be 'angstrom' or 'bohr'.").
Proof. eexists _, _, _. repeat split. Qed.

Lemma copy_is_independent_witness :
  Invariant.wf Examples.mass_table Examples.water_heap Examples.water
  /\ nth_error Examples.water_heap (Molecule.coordinates Examples.water)
     = Some Examples.water_coordinates
  /\ Molecule.valid_units (Molecule.units Examples.water) = true
  /\ exists m' h',
      Molecule.copy Examples.mass_table Examples.water Examples.water_heap
      = (Py.Ok m', h')
      /\ Molecule.coordinates m' <> Molecule.coordinates Examples.water
      /\ forall i j v r h'',
          Py.setitem (Molecule.coordinates m') i j v h' = (r, h'') ->
          nth_error h'' (Molecule.coordinates Examples.water)
          = Some Examples.water_coordinates.
Proof.
  split; [exact water_wf|]. split; [reflexivity|]. split; [reflexivity|].
  destruct (copy_is_independent Examples.mass_table Examples.water
              Examples.water_heap Examples.water_coordinates
              water_wf eq_refl eq_refl)
    as [m' [h' [E [_ [_ [_ [_ [Hne [_ [_ Hset]]]]]]]]]].
  exists m', h'. auto.
Defined.

(* ================================================================== *)
(** * Properties of binary64 rounding *)
(* ================================================================== *)

Module B64Facts.
Import B64.

Local Open Scope Q_scope.

Lemma pow2_pos e : 0 < pow2 e.
Proof. unfold pow2. apply Qpower_0_lt. reflexivity. Qed.

Lemma pow2_add a b : pow2 (a + b) == pow2 a * pow2 b.
Proof. unfold pow2. apply Qpower_plus. discriminate. Qed.

Lemma pow2_succ e : pow2 (e + 1) == 2 * pow2 e.
Proof. rewrite pow2_add. change (pow2 1) with (2 # 1). lra. Qed.

Lemma pow2_pred e : pow2 (e - 1) == (1 # 2) * pow2 e.
Proof.
  assert (H := pow2_succ (e - 1)).
  replace (e - 1 + 1)%Z with e in H by lia. lra.
Qed.

Lemma pow2_Z e : (0 <= e)%Z -> pow2 e == inject_Z (2 ^ e).
Proof. intros H. unfold pow2. rewrite Zpower_Qpower by assumption. reflexivity. Qed.

Lemma pow2_le a b : (a <= b)%Z -> pow2 a <= pow2 b.
Proof. intros H. unfold pow2. apply Qpower_le_compat_l; [assumption|lra]. Qed.

Lemma pow2_lt a b : (a < b)%Z -> pow2 a < pow2 b.
Proof. intros H. unfold pow2. apply Qpower_lt_compat_l; [assumption|lra]. Qed.

Lemma pow2_le_inv a b : pow2 a <= pow2 b -> (a <= b)%Z.
Proof.
  intros H. destruct (Z_le_gt_dec a b) as [|G]; [assumption|].
  apply Z.gt_lt, pow2_lt in G. lra.
Qed.

Lemma pow2_lt_inv a b : pow2 a < pow2 b -> (a < b)%Z.
Proof.
  intros H. destruct (Z_lt_ge_dec a b) as [|G]; [assumption|].
  apply Z.ge_le, pow2_le in G. lra.
Qed.

Lemma inject_Z_lt a b : (a < b)%Z -> inject_Z a < inject_Z b.
Proof. intros H. rewrite <- Zlt_Qlt. assumption. Qed.

Lemma inject_Z_le a b : (a <= b)%Z -> inject_Z a <= inject_Z b.
Proof. intros H. rewrite <- Zle_Qle. assumption. Qed.

Lemma inject_Z_pos a : (0 < a)%Z -> 0 < inject_Z a.
Proof. intros H. apply (inject_Z_lt 0 a H). Qed.

Lemma inject_Z_nonneg a : (0 <= a)%Z -> 0 <= inject_Z a.
Proof. intros H. apply (inject_Z_le 0 a H). Qed.

Lemma inject_Z_ge1 a : (1 <= a)%Z -> 1 <= inject_Z a.
Proof. intros H. apply (inject_Z_le 1 a H). Qed.

(** Integer mantissas against powers of two. *)
Lemma inject_Z_pow2_lt m k e : (0 <= k)%Z ->
  inject_Z m * pow2 e < pow2 (k + e) -> (m < 2 ^ k)%Z.
Proof.
  intros Hk H. rewrite pow2_add, (pow2_Z k Hk) in H.
  rewrite Zlt_Qlt. pose proof (pow2_pos e).
  apply Qmult_lt_r with (z := pow2 e); assumption.
Qed.

Lemma inject_Z_pow2_gt m k e : (0 <= k)%Z ->
  pow2 (k + e) < inject_Z m * pow2 e -> (2 ^ k < m)%Z.
Proof.
  intros Hk H. rewrite pow2_add, (pow2_Z k Hk) in H.
  rewrite Zlt_Qlt. pose proof (pow2_pos e).
  apply Qmult_lt_r with (z := pow2 e); assumption.
Qed.

Lemma digits2_pos_bounds p :
  (2 ^ (Zpos (digits2_pos p) - 1) <= Zpos p < 2 ^ Zpos (digits2_pos p))%Z.
Proof.
  induction p as [p IH|p IH|]; simpl digits2_pos.
  - rewrite Pos2Z.inj_succ.
    replace (Z.succ (Zpos (digits2_pos p)) - 1)%Z with (Zpos (digits2_pos p)) by lia.
    rewrite Z.pow_succ_r by lia.
    assert (E : (2 ^ Zpos (digits2_pos p) = 2 * 2 ^ (Zpos (digits2_pos p) - 1))%Z).
    { rewrite <- Z.pow_succ_r by lia. f_equal. lia. }
    lia.
  - rewrite Pos2Z.inj_succ.
    replace (Z.succ (Zpos (digits2_pos p)) - 1)%Z with (Zpos (digits2_pos p)) by lia.
    rewrite Z.pow_succ_r by lia.
    assert (E : (2 ^ Zpos (digits2_pos p) = 2 * 2 ^ (Zpos (digits2_pos p) - 1))%Z).
    { rewrite <- Z.pow_succ_r by lia. f_equal. lia. }
    lia.
  - simpl. lia.
Qed.

Lemma Zdigits2_bounds m : (0 < m)%Z ->
  (2 ^ (Zdigits2 m - 1) <= m < 2 ^ Zdigits2 m)%Z /\ (0 < Zdigits2 m)%Z.
Proof.
  destruct m as [|p|p]; try lia. intros _. simpl.
  split; [apply digits2_pos_bounds|lia].
Qed.

Lemma Zdigits2_nonneg m : (0 <= Zdigits2 m)%Z.
Proof. destruct m; simpl; lia. Qed.

(** [digits m <= k] as soon as [m < 2^k]. *)
Lemma Zdigits2_le m k : (0 <= m)%Z -> (0 <= k)%Z -> (m < 2 ^ k)%Z -> (Zdigits2 m <= k)%Z.
Proof.
  intros Hm Hk H. destruct (Z.eq_dec m 0) as [->|Hn]; [simpl; lia|].
  destruct (Zdigits2_bounds m) as [[Hlo _] Hd]; [lia|].
  destruct (Z_le_gt_dec (Zdigits2 m) k) as [|G]; [assumption|].
  assert (2 ^ k <= 2 ^ (Zdigits2 m - 1))%Z by (apply Z.pow_le_mono_r; lia).
  lia.
Qed.

Lemma Zdigits2_ge m k : (0 <= k)%Z -> (2 ^ k <= m)%Z -> (k + 1 <= Zdigits2 m)%Z.
Proof.
  intros Hk H.
  assert (0 < m)%Z by (pose proof (Z.pow_pos_nonneg 2 k); lia).
  destruct (Zdigits2_bounds m) as [[_ Hhi] Hd]; [lia|].
  destruct (Z_le_gt_dec (k + 1) (Zdigits2 m)) as [|G]; [assumption|].
  assert (2 ^ Zdigits2 m <= 2 ^ k)%Z by (apply Z.pow_le_mono_r; lia).
  lia.
Qed.


(** ** Rounding records *)

Lemma located_bounds m e rb sb r :
  located m e rb sb r ->
  inject_Z m * pow2 e <= r /\ r < inject_Z m * pow2 e + pow2 e.
Proof.
  pose proof (pow2_pos e).
  destruct rb, sb; cbv [located]; intros; lra.
Qed.

Lemma shr_1_located mrs e r :
  (0 <= shr_m mrs)%Z -> rec_located mrs e r ->
  rec_located (shr_1 mrs) (e + 1) r /\ (0 <= shr_m (shr_1 mrs))%Z.
Proof.
  destruct mrs as [m rb sb].
  intros Hm H.
  pose proof (pow2_pos e) as Hu.
  pose proof (pow2_succ e) as Hs.
  cbv [shr_m] in Hm.
  destruct m as [|p|p]; [| |lia].
  - destruct rb, sb;
      cbv [rec_located located shr_1 shr_m shr_r shr_s orb] in *;
      change (inject_Z 0) with 0 in *;
      (split; [|lia]); rewrite ?Hs; lra.
  - destruct p as [p|p|].
    + assert (E : inject_Z (Zpos p~1) == 2 * inject_Z (Zpos p) + 1).
      { rewrite Pos2Z.inj_xI, inject_Z_plus, inject_Z_mult. reflexivity. }
      destruct rb, sb;
        cbv [rec_located located shr_1 shr_m shr_r shr_s orb] in *;
        (split; [|lia]); rewrite ?Hs; rewrite E in H; lra.
    + assert (E : inject_Z (Zpos p~0) == 2 * inject_Z (Zpos p)).
      { rewrite Pos2Z.inj_xO, inject_Z_mult. reflexivity. }
      destruct rb, sb;
        cbv [rec_located located shr_1 shr_m shr_r shr_s orb] in *;
        (split; [|lia]); rewrite ?Hs; rewrite E in H; lra.
    + destruct rb, sb;
        cbv [rec_located located shr_1 shr_m shr_r shr_s orb] in *;
        change (inject_Z 0) with 0 in *; change (inject_Z 1) with 1 in *;
        (split; [|lia]); rewrite ?Hs; lra.
Qed.

Lemma iter_shr_1_located p : forall mrs e r,
  (0 <= shr_m mrs)%Z -> rec_located mrs e r ->
  rec_located (iter_pos shr_1 p mrs) (e + Zpos p) r
  /\ (0 <= shr_m (iter_pos shr_1 p mrs))%Z.
Proof.
  induction p as [p IH|p IH|]; intros mrs e r Hm H; simpl iter_pos.
  - destruct (shr_1_located _ _ _ Hm H) as [H1 Hm1].
    destruct (IH _ _ _ Hm1 H1) as [H2 Hm2].
    destruct (IH _ _ _ Hm2 H2) as [H3 Hm3].
    split; [|assumption].
    replace (e + Zpos p~1)%Z with (e + 1 + Zpos p + Zpos p)%Z by lia. assumption.
  - destruct (IH _ _ _ Hm H) as [H2 Hm2].
    destruct (IH _ _ _ Hm2 H2) as [H3 Hm3].
    split; [|assumption].
    replace (e + Zpos p~0)%Z with (e + Zpos p + Zpos p)%Z by lia. assumption.
  - apply shr_1_located; assumption.
Qed.

Lemma shr_located mrs e n r :
  (0 <= shr_m mrs)%Z -> rec_located mrs e r ->
  let '(mrs', e') := shr mrs e n in
  rec_located mrs' e' r /\ (0 <= shr_m mrs')%Z /\ e' = (e + Z.max n 0)%Z.
Proof.
  intros Hm H. unfold shr. destruct n as [|p|p].
  - repeat split; auto; lia.
  - destruct (iter_shr_1_located p _ _ _ Hm H). repeat split; auto; lia.
  - repeat split; auto; lia.
Qed.

Lemma shr_record_of_loc_m m l : shr_m (shr_record_of_loc m l) = m.
Proof. destruct l as [|[| |]]; reflexivity. Qed.

Lemma loc_of_shr_record_of_loc mrs :
  shr_record_of_loc (shr_m mrs) (loc_of_shr_record mrs) = mrs.
Proof. destruct mrs as [m [|] [|]]; reflexivity. Qed.


(** ** The rounding step of the binary64 operations *)

Lemma fexp_ge_emin x : (-1074 <= fexp prec emax x)%Z.
Proof. unfold fexp, emin, prec, emax. lia. Qed.

Lemma fexp_unfold x : fexp prec emax x = Z.max (x - 53) (-1074).
Proof. reflexivity. Qed.

Lemma round_nearest_even_located mrs e r :
  rec_located mrs e r ->
  let m1 := round_nearest_even (shr_m mrs) (loc_of_shr_record mrs) in
  (shr_m mrs <= m1 <= shr_m mrs + 1)%Z
  /\ Qabs (inject_Z m1 * pow2 e - r) <= (1 # 2) * pow2 e.
Proof.
  destruct mrs as [m rb sb]. pose proof (pow2_pos e) as Hu.
  assert (E : inject_Z (m + 1) == inject_Z m + 1)
    by (rewrite inject_Z_plus; reflexivity).
  destruct rb, sb; cbv [rec_located located shr_m shr_r shr_s loc_of_shr_record
                        round_nearest_even]; intros H.
  - split; [lia|]. apply Qabs_Qle_condition. rewrite E. lra.
  - destruct (Z.even m); (split; [lia|]); apply Qabs_Qle_condition;
      rewrite ?E; lra.
  - split; [lia|]. apply Qabs_Qle_condition. lra.
  - split; [lia|]. apply Qabs_Qle_condition. lra.
Qed.

Lemma binary_round_aux_spec sx mx ex lx r :
  (0 <= mx)%Z ->
  loc_located mx ex lx r ->
  (ex <= fexp prec emax (Zdigits2 mx + ex))%Z ->
  let e := fexp prec emax (Zdigits2 mx + ex) in
  exists m,
    (0 <= m <= 2 ^ 53)%Z
    /\ Qabs (inject_Z m * pow2 e - r) <= (1 # 2) * pow2 e
    /\ (2 ^ 52 <= m \/ e = -1074)%Z
    /\ r < pow2 (e + 53)
    /\ (e = (-1074)%Z \/ pow2 (e + 52) <= r)
    /\ binary_round_aux prec emax sx mx ex lx = SFround sx m e.
Proof.
  intros Hmx Hloc Hex e.
  unfold binary_round_aux, shr_fexp.
  pose proof (shr_located (shr_record_of_loc mx lx) ex (e - ex) r) as Hshr.
  rewrite shr_record_of_loc_m in Hshr. specialize (Hshr Hmx Hloc).
  fold e.
  destruct (shr (shr_record_of_loc mx lx) ex (e - ex)) as [mrs' e'].
  destruct Hshr as [Hloc' [Hm' He']].
  assert (Ee : e' = e) by lia. rewrite Ee in *. clear Ee He'.
  (* bounds on the truncated mantissa *)
  pose proof (located_bounds _ _ _ _ _ Hloc) as [Hlo Hhi].
  rewrite shr_record_of_loc_m in Hlo, Hhi.
  pose proof (located_bounds _ _ _ _ _ Hloc') as [Hlo' Hhi'].
  pose proof (pow2_pos ex) as Hux. pose proof (pow2_pos e) as Hue.
  pose proof (Zdigits2_nonneg mx) as Hd.
  assert (Hr : r < pow2 (Zdigits2 mx + ex)).
  { rewrite pow2_add, (pow2_Z _ Hd).
    assert (mx + 1 <= 2 ^ Zdigits2 mx)%Z.
    { destruct (Z.eq_dec mx 0) as [->|]; [simpl; lia|].
      destruct (Zdigits2_bounds mx); lia. }
    rewrite Zle_Qle, inject_Z_plus in H.
    change (inject_Z 1) with 1 in H.
    assert (inject_Z mx * pow2 ex + pow2 ex <= inject_Z (2 ^ Zdigits2 mx) * pow2 ex).
    { setoid_replace (inject_Z mx * pow2 ex + pow2 ex)
        with ((inject_Z mx + 1) * pow2 ex) by ring.
      apply Qmult_le_compat_r; lra. }
    lra. }
  assert (Hm53 : (shr_m mrs' < 2 ^ 53)%Z).
  { apply inject_Z_pow2_lt with (e := e); [lia|].
    assert (pow2 (Zdigits2 mx + ex) <= pow2 (53 + e)).
    { apply pow2_le. unfold e. rewrite fexp_unfold. lia. }
    lra. }
  assert (Hnorm : ((2 ^ 52 <= shr_m mrs')%Z /\ pow2 (e + 52) <= r) \/ e = (-1074)%Z).
  { destruct (Z.eq_dec e (-1074)) as [|Hne]; [right; assumption|left].
    assert (He : e = (Zdigits2 mx + ex - 53)%Z)
      by (unfold e in *; rewrite fexp_unfold in *; lia).
    assert (Hpos : (0 < mx)%Z).
    { destruct (Z.eq_dec mx 0) as [E0|]; [|lia]. exfalso.
      rewrite E0 in He, Hex. simpl in He, Hex.
      unfold e in *. rewrite fexp_unfold in *. lia. }
    destruct (Zdigits2_bounds mx Hpos) as [[Hlow _] Hdpos].
    assert (pow2 (52 + e) <= r).
    { replace (52 + e)%Z with ((Zdigits2 mx - 1) + ex)%Z by lia.
      rewrite pow2_add, (pow2_Z (Zdigits2 mx - 1)) by lia.
      rewrite Zle_Qle in Hlow.
      assert (inject_Z (2 ^ (Zdigits2 mx - 1)) * pow2 ex <= inject_Z mx * pow2 ex)
        by (apply Qmult_le_compat_r; lra).
      lra. }
    assert (Hlt : (2 ^ 52 < shr_m mrs' + 1)%Z).
    { apply inject_Z_pow2_gt with (e := e); [lia|].
      rewrite inject_Z_plus. change (inject_Z 1) with 1.
      setoid_replace ((inject_Z (shr_m mrs') + 1) * pow2 e)
        with (inject_Z (shr_m mrs') * pow2 e + pow2 e) by ring.
      lra. }
    split; [lia|]. replace (e + 52)%Z with (52 + e)%Z by lia. assumption. }
  pose proof (round_nearest_even_located _ _ _ Hloc') as [Hm1 Herr].
  set (m1 := round_nearest_even (shr_m mrs') (loc_of_shr_record mrs')) in *.
  exists m1. split; [lia|]. split; [exact Herr|].
  split; [destruct Hnorm; [left; lia|right; assumption]|].
  split.
  { assert (pow2 (Zdigits2 mx + ex) <= pow2 (e + 53)).
    { apply pow2_le. unfold e. rewrite fexp_unfold. lia. }
    lra. }
  split; [destruct Hnorm as [[_ H]|H]; [right; exact H|left; exact H]|].
  pose proof (fexp_ge_emin (Zdigits2 mx + ex)) as Hemin. fold e in Hemin.
  unfold SFround.
  destruct (Z.eqb_spec m1 (2 ^ 53)) as [E53|N53].
  - rewrite E53.
    replace (fexp prec emax (Zdigits2 (2 ^ 53) + e) - e)%Z with 1%Z
      by (rewrite fexp_unfold; simpl Zdigits2; lia).
    simpl. reflexivity.
  - assert (Hd1 : (Zdigits2 m1 <= 53)%Z) by (apply Zdigits2_le; lia).
    assert (Hn : (fexp prec emax (Zdigits2 m1 + e) - e <= 0)%Z)
      by (rewrite fexp_unfold; lia).
    unfold shr.
    destruct (fexp prec emax (Zdigits2 m1 + e) - e)%Z as [|p|p] eqn:En; try lia;
      cbv [shr_record_of_loc shr_m];
      destruct m1 as [|p1|p1]; try lia; simpl; reflexivity.
Qed.


Lemma SF2Q_finite s m e :
  SF2Q (S754_finite s m e) == signed s (inject_Z (Zpos m) * pow2 e).
Proof. destruct s; simpl; ring. Qed.

Lemma Qabs_signed s q : Qabs (signed s q) == Qabs q.
Proof. destruct s; simpl; [apply Qabs_opp|reflexivity]. Qed.

Lemma SFround_finite sx m e :
  (e <= 970)%Z -> SFfinite (SFround sx m e) = true.
Proof.
  intros He. unfold SFround.
  destruct (m =? 0)%Z; [reflexivity|].
  destruct (m =? 2 ^ 53)%Z.
  - destruct (Z.leb_spec (e + 1) 971); [reflexivity|lia].
  - destruct (Z.leb_spec e 971); [reflexivity|lia].
Qed.

Lemma SFround_value sx m e :
  (0 <= m)%Z -> SFfinite (SFround sx m e) = true ->
  SF2Q (SFround sx m e) == signed sx (inject_Z m * pow2 e).
Proof.
  intros Hm. unfold SFround.
  destruct (Z.eqb_spec m 0) as [->|Hn].
  - intros _. destruct sx; simpl; ring.
  - destruct (Z.eqb_spec m (2 ^ 53)) as [->|Hn53].
    + destruct (e + 1 <=? 971)%Z; [intros _|discriminate].
      assert (E : inject_Z (Zpos (2 ^ 52)) * pow2 (e + 1) == inject_Z (2 ^ 53) * pow2 e).
      { rewrite pow2_succ.
        change (inject_Z (2 ^ 53)) with (inject_Z (Zpos (2 ^ 52)) * 2). ring. }
      rewrite SF2Q_finite. destruct sx; cbv [signed]; rewrite E; reflexivity.
    + destruct (e <=? 971)%Z; [intros _|discriminate].
      rewrite SF2Q_finite. rewrite Z2Pos.id by lia. reflexivity.
Qed.

Lemma digits2_pos_eq p k :
  (0 < k)%Z -> (2 ^ (k - 1) <= Zpos p < 2 ^ k)%Z -> Zpos (digits2_pos p) = k.
Proof.
  intros Hk [Hlo Hhi].
  pose proof (Zdigits2_le (Zpos p) k) as H1.
  pose proof (Zdigits2_ge (Zpos p) (k - 1)) as H2.
  simpl Zdigits2 in *. lia.
Qed.

Lemma SFround_valid sx m e :
  (0 <= m <= 2 ^ 53)%Z -> (-1074 <= e)%Z -> (2 ^ 52 <= m \/ e = -1074)%Z ->
  valid_binary (SFround sx m e) = true.
Proof.
  intros Hm He Hn. unfold SFround.
  destruct (Z.eqb_spec m 0) as [->|Hn0]; [reflexivity|].
  destruct (Z.eqb_spec m (2 ^ 53)) as [->|Hn53].
  - destruct (Z.leb_spec (e + 1) 971) as [Hle|]; [|reflexivity].
    unfold SpecFloat.valid_binary, bounded, canonical_mantissa.
    change (Zpos (digits2_pos (2 ^ 52))) with 53%Z.
    rewrite fexp_unfold. unfold emax, prec.
    apply andb_true_intro. split; [apply Z.eqb_eq|apply Z.leb_le]; lia.
  - destruct (Z.leb_spec e 971) as [Hle|]; [|reflexivity].
    unfold SpecFloat.valid_binary, bounded, canonical_mantissa.
    rewrite fexp_unfold. unfold emax, prec.
    apply andb_true_intro. split; [apply Z.eqb_eq|apply Z.leb_le; lia].
    assert (Hd : (Zdigits2 m <= 53)%Z) by (apply Zdigits2_le; lia).
    destruct m as [|p|p]; try lia. simpl Zdigits2 in Hd. simpl Z.to_pos.
    destruct Hn as [H52|He'].
    + rewrite (digits2_pos_eq p 53); lia.
    + lia.
Qed.

(** The standard model of rounding, for results in the normal range:
    the relative error is at most [2^-53] and there is no overflow. *)
Lemma binary_round_aux_error sx mx ex lx r :
  (0 <= mx)%Z ->
  loc_located mx ex lx r ->
  (ex <= fexp prec emax (Zdigits2 mx + ex))%Z ->
  pow2 (-1022) <= r -> r < pow2 1023 ->
  let f := binary_round_aux prec emax sx mx ex lx in
  exists v,
    SFfinite f = true /\ valid_binary f = true
    /\ SF2Q f == signed sx v
    /\ Qabs (v - r) <= pow2 (-53) * r.
Proof.
  intros Hmx Hloc Hex Hlo Hhi f.
  destruct (binary_round_aux_spec sx mx ex lx r Hmx Hloc Hex)
    as [m [Hm [Herr [Hn [Hr53 [Hr52 E]]]]]].
  set (e := fexp prec emax (Zdigits2 mx + ex)) in *.
  pose proof (fexp_ge_emin (Zdigits2 mx + ex)) as Hemin. fold e in Hemin.
  assert (He970 : (e <= 970)%Z).
  { destruct Hr52 as [->|H52]; [lia|].
    assert (pow2 (e + 52) < pow2 1023) by lra.
    apply pow2_lt_inv in H. lia. }
  assert (Hfin : SFfinite f = true) by (unfold f; rewrite E; apply SFround_finite; lia).
  exists (inject_Z m * pow2 e).
  split; [exact Hfin|]. split.
  { unfold f. rewrite E. apply SFround_valid; auto. }
  split.
  { unfold f in *. rewrite E in *. apply SFround_value; [lia|assumption]. }
  eapply Qle_trans; [exact Herr|].
  assert (Hu : (1 # 2) * pow2 e == pow2 (-53) * pow2 (e + 52)).
  { rewrite <- pow2_add. replace (-53 + (e + 52))%Z with (e - 1)%Z by lia.
    rewrite pow2_pred. reflexivity. }
  rewrite Hu. pose proof (pow2_pos (-53)).
  apply Qmult_le_l; [assumption|].
  destruct Hr52 as [E1074|H52]; [|assumption].
  rewrite E1074. simpl Z.add. assumption.
Qed.


(** ** Division *)

Lemma new_location_spec nb k :
  (0 < nb)%Z -> (0 <= k < nb)%Z ->
  new_location nb k
  = if (k =? 0)%Z then loc_Exact else loc_Inexact (2 * k ?= nb)%Z.
Proof.
  intros Hnb Hk. unfold new_location, new_location_even, new_location_odd.
  destruct (Z.even nb) eqn:Ev; [reflexivity|].
  destruct (k =? 0)%Z; [reflexivity|]. f_equal.
  assert (Hodd : Z.odd nb = true) by (rewrite <- Z.negb_even, Ev; reflexivity).
  apply Z.odd_spec in Hodd. destruct Hodd as [z Hz].
  destruct (Z.compare_spec (2 * k + 1) nb); destruct (Z.compare_spec (2 * k) nb);
    try reflexivity; lia.
Qed.

Lemma located_fraction q e k nb r :
  (0 < nb)%Z -> (0 <= k < nb)%Z ->
  r * inject_Z nb == (inject_Z q * inject_Z nb + inject_Z k) * pow2 e ->
  loc_located q e (new_location nb k) r.
Proof.
  intros Hnb Hk Hr. rewrite new_location_spec by assumption.
  pose proof (pow2_pos e) as Hu.
  assert (HN : 0 < inject_Z nb) by (apply inject_Z_pos; lia).
  assert (HK : 0 <= inject_Z k) by (apply inject_Z_nonneg; lia).
  set (N := inject_Z nb) in *. set (K := inject_Z k) in *.
  set (A := inject_Z q) in *. set (u := pow2 e) in *.
  destruct (Z.eqb_spec k 0) as [E0|N0].
  - cbv [loc_located rec_located located shr_record_of_loc shr_m shr_r shr_s].
    fold A u. assert (K == 0) by (unfold K; rewrite E0; reflexivity).
    apply Qmult_inj_r with (z := N); [lra|]. rewrite Hr, H. ring.
  - assert (HK1 : 1 <= K).
    { unfold K. apply inject_Z_ge1. lia. }
    assert (HX : (r - A * u) * N == K * u) by (ring_simplify; rewrite Hr; ring).
    assert (Hpos : 0 < K * u) by (apply Qmult_lt_0_compat; lra).
    assert (Xpos : 0 < r - A * u).
    { destruct (Qlt_le_dec 0 (r - A * u)) as [|Hle]; [assumption|exfalso].
      assert ((r - A * u) * N <= 0 * N) by (apply Qmult_le_compat_r; lra).
      lra. }
    destruct (Z.compare_spec (2 * k) nb) as [E|L|G];
      cbv [loc_located rec_located located shr_record_of_loc shr_m shr_r shr_s];
      fold A u.
    + assert (E2 : 2 * K == N).
      { unfold K, N. rewrite <- E, inject_Z_mult. reflexivity. }
      apply Qmult_inj_r with (z := N); [lra|].
      setoid_replace (r * N) with ((r - A * u) * N + A * u * N) by ring.
      rewrite HX, <- E2. ring.
    + assert (L2 : 2 * K < N).
      { unfold K, N. apply inject_Z_lt in L. rewrite inject_Z_mult in L. exact L. }
      split; [lra|].
      destruct (Qlt_le_dec (r - A * u) ((1 # 2) * u)) as [|Hge]; [lra|exfalso].
      assert ((1 # 2) * u * N <= (r - A * u) * N) by (apply Qmult_le_compat_r; lra).
      assert (2 * K * u < N * u) by (apply Qmult_lt_compat_r; lra).
      lra.
    + assert (G2 : N < 2 * K).
      { unfold K, N. apply inject_Z_lt in G. rewrite inject_Z_mult in G. exact G. }
      assert (KN : K < N).
      { unfold K, N. apply inject_Z_lt. lia. }
      split.
      * destruct (Qlt_le_dec ((1 # 2) * u) (r - A * u)) as [|Hle]; [lra|exfalso].
        assert ((r - A * u) * N <= (1 # 2) * u * N) by (apply Qmult_le_compat_r; lra).
        assert (N * u < 2 * K * u) by (apply Qmult_lt_compat_r; lra).
        lra.
      * destruct (Qlt_le_dec (r - A * u) u) as [|Hge]; [lra|exfalso].
        assert (u * N <= (r - A * u) * N) by (apply Qmult_le_compat_r; lra).
        assert (K * u < N * u) by (apply Qmult_lt_compat_r; lra).
        lra.
Qed.


Lemma fexp_mono a b : (a <= b)%Z -> (fexp prec emax a <= fexp prec emax b)%Z.
Proof. rewrite !fexp_unfold. lia. Qed.

Lemma SFdiv_core_binary_spec m1 e1 m2 e2 r :
  r * (inject_Z (Zpos m2) * pow2 e2) == inject_Z (Zpos m1) * pow2 e1 ->
  let '(q, e', l) := SFdiv_core_binary prec emax (Zpos m1) e1 (Zpos m2) e2 in
  (0 <= q)%Z /\ loc_located q e' l r
  /\ (e' <= fexp prec emax (Zdigits2 q + e'))%Z.
Proof.
  intros Hr. unfold SFdiv_core_binary.
  set (d1 := Zdigits2 (Zpos m1)). set (d2 := Zdigits2 (Zpos m2)).
  set (X := (d1 + e1 - (d2 + e2))%Z).
  set (e' := Z.min (fexp prec emax X) (e1 - e2)).
  set (s := (e1 - e2 - e')%Z).
  assert (Hs : (0 <= s)%Z) by (unfold s, e'; lia).
  set (m' := match s with
             | 0%Z => Zpos m1
             | Zpos _ => Z.shiftl (Zpos m1) s
             | Zneg _ => 0%Z
             end).
  assert (Em' : m' = (Zpos m1 * 2 ^ s)%Z).
  { unfold m'. destruct s as [|p|p] eqn:Es; try lia.
    apply Z.shiftl_mul_pow2. lia. }
  pose proof (Z_div_mod m' (Zpos m2) (eq_refl : (Zpos m2 > 0)%Z)) as Hdiv.
  destruct (Z.div_eucl m' (Zpos m2)) as [q k]. destruct Hdiv as [Hqk Hk].
  assert (Hm'pos : (0 < m')%Z).
  { rewrite Em'. apply Z.mul_pos_pos; [lia|]. apply Z.pow_pos_nonneg; lia. }
  assert (Hq : (0 <= q)%Z) by nia.
  split; [exact Hq|]. split.
  - apply located_fraction; [lia|lia|].
    pose proof (pow2_pos e2) as Hu2.
    apply Qmult_inj_r with (z := pow2 e2); [lra|].
    setoid_replace (r * inject_Z (Zpos m2) * pow2 e2)
      with (r * (inject_Z (Zpos m2) * pow2 e2)) by ring.
    rewrite Hr.
    setoid_replace (inject_Z q * inject_Z (Zpos m2) + inject_Z k)
      with (inject_Z m').
    2:{ rewrite Hqk, inject_Z_plus, inject_Z_mult. ring. }
    rewrite Em', inject_Z_mult, <- (pow2_Z s Hs).
    replace e1 with (s + e' + e2)%Z at 1 by (unfold s; lia).
    rewrite !pow2_add. ring.
  - destruct (Zdigits2_bounds (Zpos m1) eq_refl) as [[Hlo1 Hhi1] Hd1].
    destruct (Zdigits2_bounds (Zpos m2) eq_refl) as [[Hlo2 Hhi2] Hd2].
    fold d1 in Hlo1, Hhi1, Hd1. fold d2 in Hlo2, Hhi2, Hd2.
    assert (He'X : (e' <= fexp prec emax X)%Z) by (unfold e'; lia).
    assert (Hdq : (d1 + s - d2 <= Zdigits2 q)%Z).
    { pose proof (Zdigits2_nonneg q).
      destruct (Z_le_gt_dec (d1 + s - d2) 0) as [|Hgt]; [lia|].
      apply Z.le_trans with (m := ((d1 + s - d2 - 1) + 1)%Z); [lia|].
      apply Zdigits2_ge; [lia|].
      assert (Hm'lo : (2 ^ (d1 + s - d2 - 1) * 2 ^ d2 <= m')%Z).
      { rewrite <- Z.pow_add_r by lia.
        replace (d1 + s - d2 - 1 + d2)%Z with ((d1 - 1) + s)%Z by lia.
        rewrite Z.pow_add_r by lia. rewrite Em'.
        apply Z.mul_le_mono_nonneg_r; [apply Z.pow_nonneg; lia|lia]. }
      assert (H2k : (0 < 2 ^ (d1 + s - d2 - 1))%Z) by (apply Z.pow_pos_nonneg; lia).
      destruct (Z_le_gt_dec (2 ^ (d1 + s - d2 - 1)) q) as [|Hlt]; [assumption|exfalso].
      assert (q + 1 <= 2 ^ (d1 + s - d2 - 1))%Z by lia.
      assert (m' < Zpos m2 * (q + 1))%Z by lia.
      assert (Zpos m2 * (q + 1) <= 2 ^ d2 * 2 ^ (d1 + s - d2 - 1))%Z.
      { apply Z.mul_le_mono_nonneg; lia. }
      lia. }
    apply Z.le_trans with (m := fexp prec emax X); [exact He'X|].
    apply fexp_mono. unfold X, s in *. lia.
Qed.


(** Division of finite non-zero numbers whose exact quotient is in the
    normal range. *)
Lemma SFdiv_error sx mx ex sy my ey r :
  r * (inject_Z (Zpos my) * pow2 ey) == inject_Z (Zpos mx) * pow2 ex ->
  pow2 (-1022) <= r -> r < pow2 1023 ->
  let f := SFdiv prec emax (S754_finite sx mx ex) (S754_finite sy my ey) in
  exists v,
    SFfinite f = true /\ valid_binary f = true
    /\ SF2Q f == signed (xorb sx sy) v
    /\ Qabs (v - r) <= pow2 (-53) * r.
Proof.
  intros Hr Hlo Hhi. cbv zeta. unfold SFdiv.
  pose proof (SFdiv_core_binary_spec mx ex my ey r Hr) as H.
  destruct (SFdiv_core_binary prec emax (Zpos mx) ex (Zpos my) ey) as [[q e'] l].
  destruct H as [Hq [Hloc Hex]].
  exact (binary_round_aux_error (xorb sx sy) q e' l r Hq Hloc Hex Hlo Hhi).
Qed.

(** ** Multiplication *)

Lemma canonical_exponent m e :
  canonical_mantissa prec emax m e = true ->
  (Z.max (Zpos (digits2_pos m) + e - 53) (-1074) = e)%Z.
Proof.
  unfold canonical_mantissa. rewrite fexp_unfold. intros H.
  apply Z.eqb_eq in H. exact H.
Qed.

Lemma SFmul_error sx mx ex sy my ey :
  valid_binary (S754_finite sx mx ex) = true ->
  valid_binary (S754_finite sy my ey) = true ->
  let r := inject_Z (Zpos mx) * pow2 ex * (inject_Z (Zpos my) * pow2 ey) in
  pow2 (-1022) <= r -> r < pow2 1023 ->
  let f := SFmul prec emax (S754_finite sx mx ex) (S754_finite sy my ey) in
  exists v,
    SFfinite f = true /\ valid_binary f = true
    /\ SF2Q f == signed (xorb sx sy) v
    /\ Qabs (v - r) <= pow2 (-53) * r.
Proof.
  intros Vx Vy r Hlo Hhi. cbv zeta. unfold SFmul.
  apply binary_round_aux_error; try assumption; [lia| |].
  - cbv [loc_located rec_located located shr_record_of_loc shr_m shr_r shr_s].
    unfold r. rewrite Pos2Z.inj_mul, inject_Z_mult, pow2_add. ring.
  - unfold SpecFloat.valid_binary, bounded in Vx, Vy.
    apply andb_prop in Vx, Vy. destruct Vx as [Cx _], Vy as [Cy _].
    apply canonical_exponent in Cx, Cy.
    destruct (digits2_pos_bounds mx) as [Lx _].
    destruct (digits2_pos_bounds my) as [Ly _].
    assert (Hd : (Zpos (digits2_pos mx) + Zpos (digits2_pos my) - 2 + 1
                  <= Zdigits2 (Zpos (mx * my)))%Z).
    { apply Zdigits2_ge; [lia|].
      replace (Zpos (digits2_pos mx) + Zpos (digits2_pos my) - 2)%Z
        with ((Zpos (digits2_pos mx) - 1) + (Zpos (digits2_pos my) - 1))%Z by lia.
      rewrite Z.pow_add_r by lia. rewrite Pos2Z.inj_mul.
      apply Z.mul_le_mono_nonneg; try assumption; apply Z.pow_nonneg; lia. }
    rewrite fexp_unfold. lia.
Qed.


(** ** Primitive floats *)

Lemma SF_positive_value f s v :
  SFfinite f = true -> SF2Q f == signed s v -> 0 < v ->
  exists m e, f = S754_finite s m e /\ inject_Z (Zpos m) * pow2 e == v.
Proof.
  intros Hf Hv Hpos. destruct f as [s'|s'| |s' m e]; try discriminate.
  - exfalso. simpl in Hv. destruct s; simpl in Hv; lra.
  - exists m, e. rewrite SF2Q_finite in Hv.
    assert (0 < inject_Z (Zpos m) * pow2 e).
    { apply Qmult_lt_0_compat; [apply inject_Z_pos; lia|apply pow2_pos]. }
    destruct s, s'; simpl in Hv; try (exfalso; lra); split; try reflexivity; lra.
Qed.

Lemma to_Q_positive_finite c :
  0 < to_Q c ->
  exists m e, Prim2SF c = S754_finite false m e
              /\ inject_Z (Zpos m) * pow2 e == to_Q c.
Proof.
  unfold to_Q. intros H.
  destruct (Prim2SF c) as [s|s| |s m e]; simpl in H; try lra.
  assert (0 < inject_Z (Zpos m) * pow2 e).
  { apply Qmult_lt_0_compat; [apply inject_Z_pos; lia|apply pow2_pos]. }
  destruct s; [exfalso; lra|]. exists m, e. split; reflexivity.
Qed.

Lemma pow2_m53 : pow2 (-53) == 1 # 9007199254740992.
Proof. reflexivity. Qed.

Lemma pow2_m51 : pow2 (-51) == 1 # 2251799813685248.
Proof. reflexivity. Qed.

(** Dividing by a constant in [[1/2, 1]] and multiplying by it again:
    the result differs from [x] by at most [2^-51 |x|], for [x] zero or of
    magnitude in [[2^-1021, 2^1021]]. *)
Lemma div_mul_roundtrip (x c : float) :
  (1 # 2) <= to_Q c -> to_Q c <= 1 ->
  finite x = true ->
  (to_Q x == 0 \/ (pow2 (-1021) <= Qabs (to_Q x) /\ Qabs (to_Q x) <= pow2 1021)) ->
  finite (x / c * c)%float = true
  /\ Qabs (to_Q (x / c * c)%float - to_Q x) <= pow2 (-51) * Qabs (to_Q x).
Proof.
  intros Hc1 Hc2 Hfin Hx.
  destruct (to_Q_positive_finite c) as [mc [ec [Ec HC]]]; [lra|].
  pose proof (Prim2SF_valid c) as Vc. rewrite Ec in Vc.
  unfold finite, to_Q in *.
  rewrite mul_spec, div_spec, Ec. unfold SF64mul, SF64div.
  destruct (Prim2SF x) as [s|s| |sx mx ex] eqn:Ex; try discriminate.
  - (* zero *)
    simpl. split; [reflexivity|]. rewrite pow2_m51. simpl. lra.
  - (* finite, non-zero *)
    set (X := inject_Z (Zpos mx) * pow2 ex) in *.
    set (C := inject_Z (Zpos mc) * pow2 ec) in *.
    assert (HXpos : 0 < X).
    { apply Qmult_lt_0_compat; [apply inject_Z_pos; lia|apply pow2_pos]. }
    assert (HabsX : Qabs (SF2Q (S754_finite sx mx ex)) == X).
    { rewrite SF2Q_finite, Qabs_signed. apply Qabs_pos. fold X. lra. }
    rewrite HabsX in *.
    destruct Hx as [H0|[Hlo Hhi]].
    { exfalso. rewrite SF2Q_finite in H0. fold X in H0. destruct sx; simpl in H0; lra. }
    assert (HCpos : 0 < C) by lra.
    (* the quotient *)
    set (r1 := X / C).
    assert (Hr1 : r1 * C == X) by (unfold r1; field; lra).
    assert (Hr1lo : X <= r1).
    { destruct (Qlt_le_dec r1 X) as [Hlt|]; [exfalso|assumption].
      assert (r1 * C <= r1 * 1) by (apply Qmult_le_l; nra || lra).
      lra. }
    assert (Hr1hi : r1 <= 2 * X).
    { destruct (Qlt_le_dec (2 * X) r1) as [Hlt|]; [exfalso|assumption].
      assert (r1 * (1 # 2) <= r1 * C) by (apply Qmult_le_l; lra).
      lra. }
    assert (P1 : pow2 (-1022) <= pow2 (-1021)) by (apply pow2_le; lia).
    assert (P2 : 2 * pow2 1021 == pow2 1022)
      by (rewrite <- (pow2_succ 1021); reflexivity).
    assert (P3 : pow2 1022 < pow2 1023) by (apply pow2_lt; lia).
    destruct (SFdiv_error sx mx ex false mc ec r1) as [v1 [F1 [V1 [S1 E1]]]];
      [fold X C; exact Hr1|lra|lra|].
    rewrite pow2_m53 in E1. apply Qabs_Qle_condition in E1.
    assert (Hv1pos : 0 < v1) by lra.
    destruct (SF_positive_value _ _ _ F1 S1 Hv1pos) as [my [ey [Ey HY]]].
    rewrite Ey in *. 
    (* the product *)
    set (Y := inject_Z (Zpos my) * pow2 ey) in *.
    assert (HYC1 : Y * C - X <= (1 # 9007199254740992) * X).
    { assert ((Y - r1) * C <= (1 # 9007199254740992) * r1 * C)
        by (apply Qmult_le_compat_r; lra).
      setoid_replace ((1 # 9007199254740992) * r1 * C)
        with ((1 # 9007199254740992) * (r1 * C)) in H by ring.
      rewrite Hr1 in H. 
      setoid_replace ((Y - r1) * C) with (Y * C - r1 * C) in H by ring.
      rewrite Hr1 in H. exact H. }
    assert (HYC2 : X - Y * C <= (1 # 9007199254740992) * X).
    { assert ((r1 - Y) * C <= (1 # 9007199254740992) * r1 * C)
        by (apply Qmult_le_compat_r; lra).
      setoid_replace ((1 # 9007199254740992) * r1 * C)
        with ((1 # 9007199254740992) * (r1 * C)) in H by ring.
      rewrite Hr1 in H. 
      setoid_replace ((r1 - Y) * C) with (r1 * C - Y * C) in H by ring.
      rewrite Hr1 in H. exact H. }
    assert (Q1 : pow2 (-1021) == 2 * pow2 (-1022))
      by (rewrite <- (pow2_succ (-1022)); reflexivity).
    pose proof (pow2_pos (-1022)) as Q2.
    assert (Q3 : pow2 1023 == 4 * pow2 1021).
    { rewrite <- P2 in P3. replace 1023%Z with (1022 + 1)%Z by lia.
      rewrite pow2_succ, <- P2. ring. }
    pose proof (pow2_pos 1021) as Q4.
    destruct (SFmul_error (xorb sx false) my ey false mc ec V1 Vc)
      as [v2 [F2 [V2 [S2 E2]]]]; fold Y C; [lra|lra|].
    split; [exact F2|].
    rewrite S2, SF2Q_finite. fold X.
    rewrite !xorb_false_r.
    rewrite pow2_m53 in E2. apply Qabs_Qle_condition in E2.
    fold Y C in E2.
    rewrite pow2_m51.
    setoid_replace (signed sx v2 - signed sx X) with (signed sx (v2 - X))
      by (destruct sx; simpl; ring).
    rewrite Qabs_signed. apply Qabs_Qle_condition. lra.
Qed.

End B64Facts.

(* ================================================================== *)
(** * Evaluation of [set_units] *)
(* ================================================================== *)

Module SetUnitsFacts.

Section Facts.

Variable bohr2angstrom : float.

Definition to_angstrom (m : Molecule.t) (target : string) : bool :=
  (String.eqb target "angstrom" && String.eqb (Molecule.units m) "bohr")%bool.

Definition to_bohr (m : Molecule.t) (target : string) : bool :=
  (String.eqb target "bohr" && String.eqb (Molecule.units m) "angstrom")%bool.

(** [set_units] on an object whose array is live. *)
Lemma set_units_eval m target h a :
  nth_error h (Molecule.coordinates m) = Some a ->
  Molecule.set_units bohr2angstrom m target h =
  if to_angstrom m target
  then (Py.Ok (Molecule.with_units m "angstrom"),
        Py.update h (Molecule.coordinates m)
          (map (map (fun x => (x * bohr2angstrom)%float)) a))
  else if to_bohr m target
       then (Py.Ok (Molecule.with_units m "bohr"),
             Py.update h (Molecule.coordinates m)
               (map (map (fun x => (x / bohr2angstrom)%float)) a))
       else (Py.Ok m, h).
Proof.
  intros Ha.
  pose proof (PyFacts.nth_error_live _ _ _ Ha) as Hlive.
  assert (Hlt : Nat.ltb (Molecule.coordinates m) (List.length h) = true)
    by (apply Nat.ltb_lt; exact Hlive).
  unfold Molecule.set_units, to_angstrom, to_bohr.
  destruct (String.eqb target "angstrom" && String.eqb (Molecule.units m) "bohr")%bool.
  - unfold Molecule.imul, Py.bind, Py.deref, Py.store. simpl.
    rewrite Ha, Hlt. reflexivity.
  - destruct (String.eqb target "bohr" && String.eqb (Molecule.units m) "angstrom")%bool.
    + unfold Molecule.idiv, Py.bind, Py.deref, Py.store. simpl.
      rewrite Ha, Hlt. reflexivity.
    + reflexivity.
Qed.

(** [set_units] on an object whose array is not live can only succeed as
    a no-op. *)
Lemma set_units_dangling m target h m' h' :
  nth_error h (Molecule.coordinates m) = None ->
  Molecule.set_units bohr2angstrom m target h = (Py.Ok m', h') ->
  to_angstrom m target = false /\ to_bohr m target = false /\ m' = m /\ h' = h.
Proof.
  intros Hn. unfold Molecule.set_units, to_angstrom, to_bohr.
  destruct (String.eqb target "angstrom" && String.eqb (Molecule.units m) "bohr")%bool.
  - unfold Molecule.imul, Py.bind, Py.deref. simpl. rewrite Hn. discriminate.
  - destruct (String.eqb target "bohr" && String.eqb (Molecule.units m) "angstrom")%bool.
    + unfold Molecule.idiv, Py.bind, Py.deref. simpl. rewrite Hn. discriminate.
    + intros H. inversion H. auto.
Qed.

Lemma set_units_noop m target h :
  to_angstrom m target = false -> to_bohr m target = false ->
  Molecule.set_units bohr2angstrom m target h = (Py.Ok m, h).
Proof.
  unfold Molecule.set_units, to_angstrom, to_bohr. intros -> ->. reflexivity.
Qed.

(** What a successful [set_units] leaves alone. *)
Lemma set_units_frame_facts m target h m' h' :
  Molecule.set_units bohr2angstrom m target h = (Py.Ok m', h') ->
  Molecule.labels m' = Molecule.labels m
  /\ Molecule.masses m' = Molecule.masses m
  /\ Molecule.natom m' = Molecule.natom m
  /\ Molecule.coordinates m' = Molecule.coordinates m
  /\ (Molecule.units m' = Molecule.units m \/ Molecule.units m' = target)
  /\ List.length h' = List.length h
  /\ (forall r, r <> Molecule.coordinates m -> nth_error h' r = nth_error h r).
Proof.
  intros H.
  destruct (nth_error h (Molecule.coordinates m)) as [a|] eqn:Ha.
  - rewrite (set_units_eval m target h a Ha) in H.
    destruct (to_angstrom m target) eqn:TA;
      [|destruct (to_bohr m target) eqn:TB];
      inversion H; subst m' h'; simpl; repeat split; auto;
      try (apply PyFacts.length_update);
      try (intros r Hr; apply PyFacts.nth_error_update_neq; congruence).
    + right. unfold to_angstrom in TA. apply andb_prop in TA.
      destruct TA as [T _]. apply String.eqb_eq in T. congruence.
    + right. unfold to_bohr in TB. apply andb_prop in TB.
      destruct TB as [T _]. apply String.eqb_eq in T. congruence.
  - destruct (set_units_dangling m target h m' h' Ha H)
      as [_ [_ [-> ->]]].
    repeat split; auto.
Qed.

End Facts.

End SetUnitsFacts.

(* ================================================================== *)
(** * Unit conversion there and back *)
(* ================================================================== *)

Section RoundTripUnits.

Variable bohr2angstrom : float.

Lemma Forall2_map_same {A B} (R : A -> B -> Prop) (f : A -> B) l :
  Forall (fun x => R x (f x)) l -> Forall2 R l (map f l).
Proof. induction 1; simpl; constructor; auto. Qed.

(** X1. With a bohr-to-angstrom factor between 1/2 and 1, for a
    Molecule in angstrom whose coordinate components are finite and zero
    or of magnitude between [2^-1021] and [2^1021]: after
    [set_units('bohr')] and [set_units('angstrom')] the units are
    "angstrom" again, the coordinate array is the same object, and every
    component is finite and within the relative error [2^-51] of its
    original value. *)
Theorem set_units_there_and_back m h a :
  ((1 # 2) <= B64.to_Q bohr2angstrom)%Q ->
  (B64.to_Q bohr2angstrom <= 1)%Q ->
  Molecule.units m = "angstrom"%string ->
  nth_error h (Molecule.coordinates m) = Some a ->
  Forall (Forall B64.in_range) a ->
  exists m1 h1 m2 h2 a2,
    Molecule.set_units bohr2angstrom m "bohr" h = (Py.Ok m1, h1)
    /\ Molecule.set_units bohr2angstrom m1 "angstrom" h1 = (Py.Ok m2, h2)
    /\ m2 = m
    /\ nth_error h2 (Molecule.coordinates m2) = Some a2
    /\ Forall2 (Forall2 (B64.close (B64.pow2 (-51)))) a a2.
Proof.
  intros Hc1 Hc2 Hu Ha Hrange.
  pose proof (PyFacts.nth_error_live _ _ _ Ha) as Hlive.
  set (a1 := map (map (fun x => (x / bohr2angstrom)%float)) a).
  set (h1 := Py.update h (Molecule.coordinates m) a1).
  set (m1 := Molecule.with_units m "bohr").
  assert (Ha1 : nth_error h1 (Molecule.coordinates m1) = Some a1).
  { unfold h1, m1. cbn [Molecule.coordinates Molecule.with_units].
    apply PyFacts.nth_error_update_eq. exact Hlive. }
  exists m1, h1. eexists _, _, _.
  split.
  { rewrite (SetUnitsFacts.set_units_eval bohr2angstrom m "bohr" h a Ha).
    unfold SetUnitsFacts.to_angstrom, SetUnitsFacts.to_bohr. rewrite Hu.
    reflexivity. }
  split.
  { rewrite (SetUnitsFacts.set_units_eval bohr2angstrom m1 "angstrom" h1 a1 Ha1).
    reflexivity. }
  split.
  { destruct m as [ls c u ms n]. simpl in Hu. subst u. reflexivity. }
  split.
  { cbn [Molecule.coordinates Molecule.with_units].
    apply PyFacts.nth_error_update_eq.
    unfold h1, Py.live. rewrite PyFacts.length_update. exact Hlive. }
  unfold a1. rewrite map_map.
  apply Forall2_map_same.
  eapply Forall_impl; [|exact Hrange].
  intros row Hrow. rewrite map_map. apply Forall2_map_same.
  eapply Forall_impl; [|exact Hrow].
  intros x [Hfin Hx]. unfold B64.close.
  apply B64Facts.div_mul_roundtrip; assumption.
Qed.

End RoundTripUnits.

(** C6, as stated, fails: a coordinate near the largest binary64 number
    overflows in the division of [set_units('bohr')] and comes back as an
    infinity. *)
Lemma set_units_there_and_back_overflows :
  exists m1 h1 m2 h2,
    Molecule.set_units Examples.bohr2angstrom
      (Molecule.mk ["H"%string] 0 "angstrom" [1.00782503207%float] 1)
      "bohr" [[[0x1.fffffffffffffp+1023; 0; 0]%float]] = (Py.Ok m1, h1)
    /\ Molecule.set_units Examples.bohr2angstrom m1 "angstrom" h1 = (Py.Ok m2, h2)
    /\ Molecule.units m2 = "angstrom"%string
    /\ B64.finite 0x1.fffffffffffffp+1023%float = true
    /\ Py.getitem h2 (Molecule.coordinates m2) 0 0 = Some infinity.
Proof.
  eexists _, _, _, _.
  split; [vm_compute; reflexivity|].
  split; [vm_compute; reflexivity|].
  split; [reflexivity|].
  split; vm_compute; reflexivity.
Qed.

Ltac in_range_tac :=
  split;
  [ reflexivity
  | first [ left; reflexivity
          | right; split; apply Qle_bool_imp_le; vm_compute; reflexivity ] ].

Lemma water_in_range : Forall (Forall B64.in_range) Examples.water_coordinates.
Proof.
  unfold Examples.water_coordinates.
  repeat first [ apply Forall_nil | apply Forall_cons | in_range_tac ].
Defined.

Lemma set_units_there_and_back_witness :
  ((1 # 2) <= B64.to_Q Examples.bohr2angstrom)%Q
  /\ (B64.to_Q Examples.bohr2angstrom <= 1)%Q
  /\ Molecule.units Examples.water = "angstrom"%string
  /\ nth_error Examples.water_heap (Molecule.coordinates Examples.water)
     = Some Examples.water_coordinates
  /\ Forall (Forall B64.in_range) Examples.water_coordinates
  /\ exists m1 h1 m2 h2 a2,
      Molecule.set_units Examples.bohr2angstrom Examples.water "bohr"
        Examples.water_heap = (Py.Ok m1, h1)
      /\ Molecule.set_units Examples.bohr2angstrom m1 "angstrom" h1 = (Py.Ok m2, h2)
      /\ m2 = Examples.water
      /\ nth_error h2 (Molecule.coordinates m2) = Some a2
      /\ Forall2 (Forall2 (B64.close (B64.pow2 (-51)))) Examples.water_coordinates a2.
Proof.
  assert (H1 : ((1 # 2) <= B64.to_Q Examples.bohr2angstrom)%Q)
    by (apply Qle_bool_imp_le; vm_compute; reflexivity).
  assert (H2 : (B64.to_Q Examples.bohr2angstrom <= 1)%Q)
    by (apply Qle_bool_imp_le; vm_compute; reflexivity).
  split; [exact H1|]. split; [exact H2|]. split; [reflexivity|].
  split; [reflexivity|]. split; [exact water_in_range|].
  exact (set_units_there_and_back Examples.bohr2angstrom Examples.water
           Examples.water_heap Examples.water_coordinates
           H1 H2 eq_refl eq_refl water_in_range).
Defined.

(* ================================================================== *)
(** * Iteration and stringification *)
(* ================================================================== *)

Module IterFacts.

Lemma zip_length {A B} (l : list A) (l' : list B) :
  List.length (Py.zip l l') = Nat.min (List.length l) (List.length l').
Proof.
  revert l'; induction l as [|x l IH]; intros [|y l']; simpl; auto.
Qed.

Lemma zip_fst {A B} (l : list A) (l' : list B) :
  map fst (Py.zip l l') = firstn (List.length (Py.zip l l')) l.
Proof.
  revert l'; induction l as [|x l IH]; intros [|y l']; simpl; auto.
  f_equal. apply IH.
Qed.

Lemma zip_snd {A B} (l : list A) (l' : list B) :
  map snd (Py.zip l l') = firstn (List.length (Py.zip l l')) l'.
Proof.
  revert l'; induction l as [|x l IH]; intros [|y l']; simpl; auto.
  f_equal. apply IH.
Qed.

Lemma iter_eval m h a :
  nth_error h (Molecule.coordinates m) = Some a ->
  Molecule.__iter__ m h = (Py.Ok (Py.zip (Molecule.labels m) a), h).
Proof.
  intros Ha. unfold Molecule.__iter__, Py.bind, Py.deref. rewrite Ha. reflexivity.
Qed.

Lemma str_eval m h a :
  nth_error h (Molecule.coordinates m) = Some a ->
  Molecule.__str__ m h =
  (Molecule.format_rows
     ("units " ++ Molecule.units m ++ String (ascii_of_nat 10) EmptyString)%string
     (Py.zip (Molecule.labels m) a), h).
Proof.
  intros Ha. unfold Molecule.__str__, Py.bind. rewrite (iter_eval m h a Ha).
  reflexivity.
Qed.

Lemma append_assoc (a b c : string) : ((a ++ b) ++ c = a ++ (b ++ c))%string.
Proof. induction a; simpl; congruence. Qed.

Lemma append_nil_r (a : string) : (a ++ "" = a)%string.
Proof. induction a; simpl; congruence. Qed.

(** The accumulating loop of [__str__] appends the row texts in order. *)
Lemma format_rows_ok items : forall ret lines,
  Forall2 (fun it line => Molecule.format_row (fst it) (snd it) = Py.Ok line)
    items lines ->
  Molecule.format_rows ret items = Py.Ok (ret ++ String.concat "" lines)%string.
Proof.
  induction items as [|[l row] items IH]; intros ret lines H; inversion H; subst.
  - simpl. now rewrite append_nil_r.
  - simpl in *. rewrite H2. rewrite (IH _ _ H4).
    f_equal. rewrite append_assoc. f_equal.
    destruct l'; simpl; [now rewrite append_nil_r|reflexivity].
Qed.

Lemma format_row_ok l row :
  3 <= List.length row -> exists line, Molecule.format_row l row = Py.Ok line.
Proof.
  destruct row as [|x [|y [|z row]]]; simpl; try lia. eauto.
Qed.

Lemma format_row_short l row :
  List.length row < 3 -> exists msg, Molecule.format_row l row = Py.Raise (Py.IndexError msg).
Proof.
  destruct row as [|x [|y [|z row]]]; simpl; try lia; eauto.
Qed.

Lemma format_rows_raise items : forall ret,
  Exists (fun it => List.length (snd it) < 3) items ->
  exists msg, Molecule.format_rows ret items = Py.Raise (Py.IndexError msg).
Proof.
  induction items as [|[l row] items IH]; intros ret H; [inversion H|].
  simpl. destruct (Nat.lt_ge_cases (List.length row) 3) as [Hs|Hl].
  - destruct (format_row_short l row Hs) as [msg E]. rewrite E. eauto.
  - destruct (format_row_ok l row Hl) as [line E]. rewrite E.
    apply IH. inversion H; subst; [simpl in *; lia|assumption].
Qed.

Lemma format_row_firstn l row :
  Molecule.format_row l (firstn 3 row) = Molecule.format_row l row.
Proof. destruct row as [|x [|y [|z row]]]; reflexivity. Qed.

Lemma format_rows_firstn ls : forall a ret,
  Molecule.format_rows ret (Py.zip ls (map (firstn 3) a))
  = Molecule.format_rows ret (Py.zip ls a).
Proof.
  induction ls as [|l ls IH]; intros [|row a] ret;
    cbn [map Py.zip Molecule.format_rows]; auto.
  rewrite format_row_firstn.
  destruct (Molecule.format_row l row); [apply IH|reflexivity].
Qed.

End IterFacts.

Section IterationAndText.

(** X8. [__iter__] yields [zip(labels, rows)]: as many pairs
    as the shorter of the two, the labels and the rows each in order; the
    surplus of the longer one is dropped silently, and no object
    changes, so the iteration can be repeated. *)
Theorem iter_yields_zip m h a :
  nth_error h (Molecule.coordinates m) = Some a ->
  exists items,
    Molecule.__iter__ m h = (Py.Ok items, h)
    /\ List.length items
       = Nat.min (List.length (Molecule.labels m)) (List.length a)
    /\ map fst items = firstn (List.length items) (Molecule.labels m)
    /\ map snd items = firstn (List.length items) a.
Proof.
  intros Ha. exists (Py.zip (Molecule.labels m) a).
  split; [apply IterFacts.iter_eval; exact Ha|].
  split; [apply IterFacts.zip_length|].
  split; [apply IterFacts.zip_fst|apply IterFacts.zip_snd].
Qed.

(** X9. [__str__] succeeds exactly when every row that
    the iteration yields has at least three components: then the text is
    the line [units <units>] followed by the formatted line of every
    pair, in order; a yielded row with fewer than three components makes
    it raise IndexError.  No object changes either way. *)
Theorem str_needs_three_components m h a :
  nth_error h (Molecule.coordinates m) = Some a ->
  let items := Py.zip (Molecule.labels m) a in
  (Forall (fun it => 3 <= List.length (snd it)) items ->
   exists lines,
     Forall2 (fun it line => Molecule.format_row (fst it) (snd it) = Py.Ok line)
       items lines
     /\ Molecule.__str__ m h
        = (Py.Ok ("units " ++ Molecule.units m
                  ++ String (ascii_of_nat 10) EmptyString
                  ++ String.concat "" lines)%string, h))
  /\ (Exists (fun it => List.length (snd it) < 3) items ->
      exists msg, Molecule.__str__ m h = (Py.Raise (Py.IndexError msg), h)).
Proof.
  intros Ha items. rewrite (IterFacts.str_eval m h a Ha). fold items.
  split.
  - intros Hall.
    assert (Hl : exists lines,
               Forall2 (fun it line =>
                          Molecule.format_row (fst it) (snd it) = Py.Ok line)
                 items lines).
    { induction Hall as [|[l row] items' H3 _ [lines IH]].
      - exists []. constructor.
      - destruct (IterFacts.format_row_ok l row H3) as [line E].
        exists (line :: lines). constructor; assumption. }
    destruct Hl as [lines Hl]. exists lines. split; [exact Hl|].
    rewrite (IterFacts.format_rows_ok _ _ _ Hl).
    rewrite !IterFacts.append_assoc. reflexivity.
  - intros Hex.
    destruct (IterFacts.format_rows_raise items
                ("units " ++ Molecule.units m
                 ++ String (ascii_of_nat 10) EmptyString)%string Hex) as [msg E].
    exists msg. rewrite E. reflexivity.
Qed.

(** X10. [__str__] formats the first three components of a
    row and ignores any further ones: two coordinate arrays that agree on
    the first three components of every row give the same text (or the
    same exception). *)
Theorem str_reads_three_columns m h h' a a' :
  nth_error h (Molecule.coordinates m) = Some a ->
  nth_error h' (Molecule.coordinates m) = Some a' ->
  map (firstn 3) a = map (firstn 3) a' ->
  fst (Molecule.__str__ m h) = fst (Molecule.__str__ m h').
Proof.
  intros Ha Ha' E.
  rewrite (IterFacts.str_eval m h a Ha), (IterFacts.str_eval m h' a' Ha'). simpl.
  rewrite <- (IterFacts.format_rows_firstn (Molecule.labels m) a).
  rewrite <- (IterFacts.format_rows_firstn (Molecule.labels m) a').
  rewrite E. reflexivity.
Qed.

End IterationAndText.

Module UnitsFacts.

Lemma lower_ascii_idempotent c : Py.lower_ascii (Py.lower_ascii c) = Py.lower_ascii c.
Proof. destruct c as [[] [] [] [] [] [] [] []]; reflexivity. Qed.

Lemma lower_idempotent s : Py.lower (Py.lower s) = Py.lower s.
Proof.
  induction s as [|c s IH]; simpl; [reflexivity|].
  now rewrite lower_ascii_idempotent, IH.
Qed.

End UnitsFacts.


Section SetUnitsMore.

Variable get_mass : string -> option float.
Variable bohr2angstrom : float.

(** X3. A successful [set_units(target)] followed by the
    same call again: the second call changes neither the object nor the
    heap. *)
Theorem set_units_idempotent m target h m1 h1 :
  Molecule.set_units bohr2angstrom m target h = (Py.Ok m1, h1) ->
  Molecule.set_units bohr2angstrom m1 target h1 = (Py.Ok m1, h1).
Proof.
  intros H.
  destruct (nth_error h (Molecule.coordinates m)) as [a|] eqn:Ha.
  - rewrite (SetUnitsFacts.set_units_eval bohr2angstrom m target h a Ha) in H.
    destruct (SetUnitsFacts.to_angstrom m target) eqn:TA.
    + inversion H; subst m1 h1. apply SetUnitsFacts.set_units_noop.
      * unfold SetUnitsFacts.to_angstrom. simpl. apply andb_false_r.
      * unfold SetUnitsFacts.to_angstrom in TA. apply andb_prop in TA.
        destruct TA as [T _]. apply String.eqb_eq in T. subst target. reflexivity.
    + destruct (SetUnitsFacts.to_bohr m target) eqn:TB.
      * inversion H; subst m1 h1. apply SetUnitsFacts.set_units_noop.
        -- unfold SetUnitsFacts.to_bohr in TB. apply andb_prop in TB.
           destruct TB as [T _]. apply String.eqb_eq in T. subst target. reflexivity.
        -- unfold SetUnitsFacts.to_bohr. simpl. apply andb_false_r.
      * inversion H; subst m1 h1.
        apply SetUnitsFacts.set_units_noop; assumption.
  - destruct (SetUnitsFacts.set_units_dangling bohr2angstrom m target h m1 h1 Ha H)
      as [TA [TB [-> ->]]].
    apply SetUnitsFacts.set_units_noop; assumption.
Qed.

(** X4. Once the units attribute is neither "angstrom" nor
    "bohr" (which [set_coordinates] can cause), no call of [set_units]
    changes anything, whatever the target. *)
Theorem set_units_inert_on_invalid_units m target h :
  Molecule.valid_units (Molecule.units m) = false ->
  Molecule.set_units bohr2angstrom m target h = (Py.Ok m, h).
Proof.
  intros Hv. apply MoleculeFacts.valid_units_false in Hv. destruct Hv as [H1 H2].
  apply String.eqb_neq in H1, H2.
  apply SetUnitsFacts.set_units_noop.
  - unfold SetUnitsFacts.to_angstrom. rewrite H2. apply andb_false_r.
  - unfold SetUnitsFacts.to_bohr. rewrite H1. apply andb_false_r.
Qed.

(** X5. A successful [set_units] keeps the labels, the masses, the
    atom count and the identity of the coordinate array; it leaves every
    other array of the heap untouched and allocates nothing; the units
    afterwards are the old units or the target. *)
Theorem set_units_frame m target h m' h' :
  Molecule.set_units bohr2angstrom m target h = (Py.Ok m', h') ->
  Molecule.labels m' = Molecule.labels m
  /\ Molecule.masses m' = Molecule.masses m
  /\ Molecule.natom m' = Molecule.natom m
  /\ Molecule.coordinates m' = Molecule.coordinates m
  /\ (Molecule.units m' = Molecule.units m \/ Molecule.units m' = target)
  /\ List.length h' = List.length h
  /\ (forall r, r <> Molecule.coordinates m -> nth_error h' r = nth_error h r).
Proof. apply SetUnitsFacts.set_units_frame_facts. Qed.

End SetUnitsMore.

(* ================================================================== *)
(** * Sharing and copying of the coordinate array *)
(* ================================================================== *)

Section Sharing.

Variable get_mass : string -> option float.
Variable bohr2angstrom : float.

(** X6. [set_coordinates] stores the caller's array object
    itself, so a later unit conversion rewrites that very object: the
    array the caller passed holds the converted values afterwards. *)
Theorem set_coordinates_shares_array m c h a :
  nth_error h c = Some a ->
  (exists m1 m2 h2,
      Molecule.set_coordinates m c (Some "bohr"%string) h = (Py.Ok m1, h)
      /\ Molecule.set_units bohr2angstrom m1 "angstrom" h = (Py.Ok m2, h2)
      /\ Molecule.coordinates m2 = c
      /\ nth_error h2 c
         = Some (map (map (fun x => (x * bohr2angstrom)%float)) a))
  /\ (exists m1 m2 h2,
         Molecule.set_coordinates m c (Some "angstrom"%string) h = (Py.Ok m1, h)
         /\ Molecule.set_units bohr2angstrom m1 "bohr" h = (Py.Ok m2, h2)
         /\ Molecule.coordinates m2 = c
         /\ nth_error h2 c
            = Some (map (map (fun x => (x / bohr2angstrom)%float)) a)).
Proof.
  intros Ha. pose proof (PyFacts.nth_error_live _ _ _ Ha) as Hlive.
  split.
  - set (m1 := Molecule.with_coordinates (Molecule.with_units m "bohr") c).
    exists m1. eexists _, _. split; [reflexivity|].
    split; [rewrite (SetUnitsFacts.set_units_eval bohr2angstrom m1 "angstrom" h a Ha);
            reflexivity|].
    simpl. split; [reflexivity|].
    apply PyFacts.nth_error_update_eq. exact Hlive.
  - set (m1 := Molecule.with_coordinates (Molecule.with_units m "angstrom") c).
    exists m1. eexists _, _. split; [reflexivity|].
    split; [rewrite (SetUnitsFacts.set_units_eval bohr2angstrom m1 "bohr" h a Ha);
            reflexivity|].
    simpl. split; [reflexivity|].
    apply PyFacts.nth_error_update_eq. exact Hlive.
Qed.

(** X7. The constructor keeps a copy of the array it
    is given, never the array itself: the new object's array is a fresh
    object with the same contents, every existing array is unchanged, and
    a later [set_units] on the new object leaves the given array as it
    was. *)
Theorem init_copies_its_array labels r units h m h' :
  Molecule.__init__ get_mass labels (Py.NdArray r) units h = (Py.Ok m, h') ->
  Molecule.coordinates m <> r
  /\ ~ Py.live h (Molecule.coordinates m)
  /\ nth_error h' (Molecule.coordinates m) = nth_error h r
  /\ (forall r0, Py.live h r0 -> nth_error h' r0 = nth_error h r0)
  /\ (forall target m2 h2,
         Molecule.set_units bohr2angstrom m target h' = (Py.Ok m2, h2) ->
         nth_error h2 r = nth_error h r).
Proof.
  intros H.
  assert (Hlive : Py.live h r).
  { unfold Molecule.__init__, Py.bind at 1, Py.np_array, Py.bind at 1, Py.deref in H.
    destruct (nth_error h r) eqn:E; [|discriminate].
    eapply PyFacts.nth_error_live; eauto. }
  destruct (MoleculeFacts.init_eval get_mass labels (Py.NdArray r) units h Hlive)
    as [a [E Ha]].
  rewrite E in H.
  destruct (Molecule.get_masses get_mass labels) as [ms|]; [|discriminate].
  destruct (Molecule.valid_units (Py.lower units)); [|discriminate].
  inversion H; subst m h'; simpl. unfold Py.live in *.
  assert (Hold : forall r0, r0 < List.length h ->
                            nth_error (h ++ [a]) r0 = nth_error h r0)
    by (intros; apply PyFacts.nth_error_snoc_old; assumption).
  split; [lia|]. split; [lia|].
  split; [rewrite PyFacts.nth_error_snoc_new; symmetry; exact Ha|].
  split; [exact Hold|].
  intros target m2 h2 Hs.
  destruct (SetUnitsFacts.set_units_frame_facts bohr2angstrom _ _ _ _ _ Hs) as [_ [_ [_ [_ [_ [_ Hf]]]]]].
  simpl in Hf. rewrite Hf by lia. apply Hold. exact Hlive.
Qed.

(** X11. For an object with valid units, the copy prints
    exactly as the original does. *)
Theorem copy_has_same_text m h a :
  Invariant.wf get_mass h m ->
  nth_error h (Molecule.coordinates m) = Some a ->
  Molecule.valid_units (Molecule.units m) = true ->
  exists m' h',
    Molecule.copy get_mass m h = (Py.Ok m', h')
    /\ fst (Molecule.__str__ m' h') = fst (Molecule.__str__ m h).
Proof.
  intros [Hlive [Hms Hn]] Ha Hv.
  rewrite (CopyFacts.copy_eval get_mass m h a Ha), Hms.
  rewrite (CopyFacts.lower_valid_units _ Hv), Hv.
  set (m' := Molecule.mk (Molecule.labels m) (S (List.length h))
               (Molecule.units m) (Molecule.masses m)
               (List.length (Molecule.labels m))).
  exists m', ((h ++ [a]) ++ [a]). split; [reflexivity|].
  assert (Hnew : nth_error ((h ++ [a]) ++ [a]) (Molecule.coordinates m') = Some a).
  { unfold m'. cbn [Molecule.coordinates].
    replace (S (List.length h)) with (List.length (h ++ [a]))
      by (rewrite length_app; simpl; lia).
    apply PyFacts.nth_error_snoc_new. }
  rewrite (IterFacts.str_eval m' _ a Hnew), (IterFacts.str_eval m h a Ha).
  reflexivity.
Qed.

End Sharing.

(* ================================================================== *)
(** * Conversion from bohr to angstrom and back *)
(* ================================================================== *)

Module B64More.
Import B64 B64Facts.

Local Open Scope Q_scope.

(** Multiplying by a constant in [[1/2, 1]] and dividing by it again. *)
Lemma mul_div_roundtrip (x c : float) :
  (1 # 2) <= to_Q c -> to_Q c <= 1 ->
  finite x = true ->
  (to_Q x == 0 \/ (pow2 (-1021) <= Qabs (to_Q x) /\ Qabs (to_Q x) <= pow2 1021)) ->
  finite (x * c / c)%float = true
  /\ Qabs (to_Q (x * c / c)%float - to_Q x) <= pow2 (-51) * Qabs (to_Q x).
Proof.
  intros Hc1 Hc2 Hfin Hx.
  destruct (to_Q_positive_finite c) as [mc [ec [Ec HC]]]; [lra|].
  pose proof (Prim2SF_valid c) as Vc. rewrite Ec in Vc.
  pose proof (Prim2SF_valid x) as Vx.
  unfold finite, to_Q in *.
  rewrite div_spec, mul_spec, Ec. unfold SF64mul, SF64div.
  destruct (Prim2SF x) as [s|s| |sx mx ex] eqn:Ex; try discriminate.
  - simpl. split; [reflexivity|]. rewrite pow2_m51. simpl. lra.
  - set (X := inject_Z (Zpos mx) * pow2 ex) in *.
    set (C := inject_Z (Zpos mc) * pow2 ec) in *.
    assert (HXpos : 0 < X).
    { apply Qmult_lt_0_compat; [apply inject_Z_pos; lia|apply pow2_pos]. }
    assert (HabsX : Qabs (SF2Q (S754_finite sx mx ex)) == X).
    { rewrite SF2Q_finite, Qabs_signed. apply Qabs_pos. fold X. lra. }
    rewrite HabsX in *.
    destruct Hx as [H0|[Hlo Hhi]].
    { exfalso. rewrite SF2Q_finite in H0. fold X in H0. destruct sx; simpl in H0; lra. }
    assert (HCpos : 0 < C) by lra.
    assert (Hr1lo : (1 # 2) * X <= X * C).
    { assert (X * (1 # 2) <= X * C) by (apply Qmult_le_l; lra). lra. }
    assert (Hr1hi : X * C <= X).
    { assert (X * C <= X * 1) by (apply Qmult_le_l; lra). lra. }
    assert (Q1 : pow2 (-1021) == 2 * pow2 (-1022))
      by (rewrite <- (pow2_succ (-1022)); reflexivity).
    pose proof (pow2_pos (-1022)) as Q2.
    assert (P2 : 2 * pow2 1021 == pow2 1022)
      by (rewrite <- (pow2_succ 1021); reflexivity).
    assert (P3 : pow2 1022 < pow2 1023) by (apply pow2_lt; lia).
    pose proof (pow2_pos 1021) as Q4.
    (* the product *)
    destruct (SFmul_error sx mx ex false mc ec Vx Vc)
      as [v1 [F1 [V1 [S1 E1]]]]; fold X C; [lra|lra|].
    rewrite pow2_m53 in E1. apply Qabs_Qle_condition in E1. fold X C in E1.
    assert (Hv1pos : 0 < v1) by lra.
    destruct (SF_positive_value _ _ _ F1 S1 Hv1pos) as [my [ey [Ey HY]]].
    rewrite Ey in *.
    set (Y := inject_Z (Zpos my) * pow2 ey) in *.
    (* the quotient *)
    set (r2 := Y / C).
    assert (Hr2 : r2 * C == Y) by (unfold r2; field; lra).
    assert (Hr2hi : r2 - X <= (1 # 9007199254740992) * X).
    { apply Qmult_le_r with (z := C); [exact HCpos|].
      setoid_replace ((r2 - X) * C) with (r2 * C - X * C) by ring.
      rewrite Hr2.
      setoid_replace ((1 # 9007199254740992) * X * C)
        with ((1 # 9007199254740992) * (X * C)) by ring.
      lra. }
    assert (Hr2lo : X - r2 <= (1 # 9007199254740992) * X).
    { apply Qmult_le_r with (z := C); [exact HCpos|].
      setoid_replace ((X - r2) * C) with (X * C - r2 * C) by ring.
      rewrite Hr2.
      setoid_replace ((1 # 9007199254740992) * X * C)
        with ((1 # 9007199254740992) * (X * C)) by ring.
      lra. }
    destruct (SFdiv_error (xorb sx false) my ey false mc ec r2)
      as [v2 [F2 [V2 [S2 E2]]]]; [fold Y C; exact Hr2|lra|lra|].
    split; [exact F2|].
    rewrite S2, SF2Q_finite. fold X.
    rewrite !xorb_false_r.
    rewrite pow2_m53 in E2. apply Qabs_Qle_condition in E2.
    rewrite pow2_m51.
    setoid_replace (signed sx v2 - signed sx X) with (signed sx (v2 - X))
      by (destruct sx; simpl; ring).
    rewrite Qabs_signed. apply Qabs_Qle_condition. lra.
Qed.

End B64More.

Section RoundTripFromBohr.

Variable bohr2angstrom : float.

(** X2. With a bohr-to-angstrom factor between 1/2
    and 1, for a Molecule in bohr whose coordinate components are finite
    and zero or of magnitude between [2^-1021] and [2^1021]: after
    [set_units('angstrom')] and [set_units('bohr')] the object is as it
    was, its array is the same object, and every component is finite and
    within the relative error [2^-51] of its original value. *)
Theorem set_units_there_and_back_from_bohr m h a :
  ((1 # 2) <= B64.to_Q bohr2angstrom)%Q ->
  (B64.to_Q bohr2angstrom <= 1)%Q ->
  Molecule.units m = "bohr"%string ->
  nth_error h (Molecule.coordinates m) = Some a ->
  Forall (Forall B64.in_range) a ->
  exists m1 h1 m2 h2 a2,
    Molecule.set_units bohr2angstrom m "angstrom" h = (Py.Ok m1, h1)
    /\ Molecule.set_units bohr2angstrom m1 "bohr" h1 = (Py.Ok m2, h2)
    /\ m2 = m
    /\ nth_error h2 (Molecule.coordinates m2) = Some a2
    /\ Forall2 (Forall2 (B64.close (B64.pow2 (-51)))) a a2.
Proof.
  intros Hc1 Hc2 Hu Ha Hrange.
  pose proof (PyFacts.nth_error_live _ _ _ Ha) as Hlive.
  set (a1 := map (map (fun x => (x * bohr2angstrom)%float)) a).
  set (h1 := Py.update h (Molecule.coordinates m) a1).
  set (m1 := Molecule.with_units m "angstrom").
  assert (Ha1 : nth_error h1 (Molecule.coordinates m1) = Some a1).
  { unfold h1, m1. cbn [Molecule.coordinates Molecule.with_units].
    apply PyFacts.nth_error_update_eq. exact Hlive. }
  exists m1, h1. eexists _, _, _.
  split.
  { rewrite (SetUnitsFacts.set_units_eval bohr2angstrom m "angstrom" h a Ha).
    unfold SetUnitsFacts.to_angstrom. rewrite Hu. reflexivity. }
  split.
  { rewrite (SetUnitsFacts.set_units_eval bohr2angstrom m1 "bohr" h1 a1 Ha1).
    reflexivity. }
  split.
  { destruct m as [ls c u ms n]. simpl in Hu. subst u. reflexivity. }
  split.
  { cbn [Molecule.coordinates Molecule.with_units].
    apply PyFacts.nth_error_update_eq.
    unfold h1, Py.live. rewrite PyFacts.length_update. exact Hlive. }
  unfold a1. rewrite map_map.
  apply Forall2_map_same.
  eapply Forall_impl; [|exact Hrange].
  intros row Hrow. rewrite map_map. apply Forall2_map_same.
  eapply Forall_impl; [|exact Hrow].
  intros x [Hfin Hx]. unfold B64.close.
  apply B64More.mul_div_roundtrip; assumption.
Qed.

End RoundTripFromBohr.

(* ================================================================== *)
(** * Class invariants *)
(* ================================================================== *)

Module ClassInvariant.

Section Defs.

Variable get_mass : string -> option float.

(** Mass [i] is the table's mass of label [i], and [natom] counts the
    labels. *)
Definition masses_ok (m : Molecule.t) : Prop :=
  Forall2 (fun l x => get_mass l = Some x) (Molecule.labels m) (Molecule.masses m)
  /\ Molecule.natom m = List.length (Molecule.labels m).

Lemma get_masses_Forall2 ls ms :
  Molecule.get_masses get_mass ls = Py.Ok ms ->
  Forall2 (fun l x => get_mass l = Some x) ls ms.
Proof.
  revert ms; induction ls as [|l ls IH]; simpl; intros ms H.
  - inversion H. constructor.
  - destruct (get_mass l) as [x|] eqn:E; [|discriminate].
    destruct (Molecule.get_masses get_mass ls) as [ms'|]; [|discriminate].
    inversion H; subst. constructor; auto.
Qed.

Lemma init_ok_inv labels coords units h m h' :
  Molecule.__init__ get_mass labels coords units h = (Py.Ok m, h') ->
  exists ms,
    Molecule.get_masses get_mass labels = Py.Ok ms
    /\ Molecule.valid_units (Py.lower units) = true
    /\ m = Molecule.mk labels (List.length h) (Py.lower units) ms (List.length labels).
Proof.
  intros H.
  assert (Hok : Py.array_like_ok h coords).
  { destruct coords as [rows|r]; simpl; [exact I|].
    unfold Molecule.__init__, Py.bind at 1, Py.np_array, Py.bind at 1, Py.deref in H.
    destruct (nth_error h r) eqn:E; [|discriminate].
    eapply PyFacts.nth_error_live; eauto. }
  destruct (MoleculeFacts.init_eval get_mass labels coords units h Hok) as [a [E _]].
  rewrite E in H.
  destruct (Molecule.get_masses get_mass labels) as [ms|]; [|discriminate].
  destruct (Molecule.valid_units (Py.lower units)) eqn:V; [|discriminate].
  inversion H. exists ms. auto.
Qed.

Lemma copy_ok_inv m h m' h' :
  Molecule.copy get_mass m h = (Py.Ok m', h') ->
  exists ms,
    Molecule.get_masses get_mass (Molecule.labels m) = Py.Ok ms
    /\ Molecule.valid_units (Py.lower (Molecule.units m)) = true
    /\ m' = Molecule.mk (Molecule.labels m) (S (List.length h))
              (Py.lower (Molecule.units m)) ms (List.length (Molecule.labels m)).
Proof.
  intros H.
  destruct (CopyFacts.copy_ok_live get_mass _ _ _ _ H) as [a Ha].
  rewrite (CopyFacts.copy_eval get_mass m h a Ha) in H.
  destruct (Molecule.get_masses get_mass (Molecule.labels m)) as [ms|]; [|discriminate].
  destruct (Molecule.valid_units (Py.lower (Molecule.units m))) eqn:V; [|discriminate].
  inversion H. exists ms. auto.
Qed.

End Defs.

End ClassInvariant.

Section Invariants.

Variable get_mass : string -> option float.
Variable bohr2angstrom : float.

(** X12. In every object the constructor returns, mass [i] is the
    table's mass of label [i] and [natom] is the number of labels;
    [set_units] and [set_coordinates] keep this, and so does [copy],
    which looks the masses up again. *)
Theorem masses_follow_labels :
  (forall labels coords units h m h',
      Molecule.__init__ get_mass labels coords units h = (Py.Ok m, h') ->
      ClassInvariant.masses_ok get_mass m)
  /\ (forall m target h m' h',
         ClassInvariant.masses_ok get_mass m ->
         Molecule.set_units bohr2angstrom m target h = (Py.Ok m', h') ->
         ClassInvariant.masses_ok get_mass m')
  /\ (forall m c u h m' h',
         ClassInvariant.masses_ok get_mass m ->
         Molecule.set_coordinates m c u h = (Py.Ok m', h') ->
         ClassInvariant.masses_ok get_mass m')
  /\ (forall m h m' h',
         Molecule.copy get_mass m h = (Py.Ok m', h') ->
         ClassInvariant.masses_ok get_mass m').
Proof.
  split; [|split; [|split]].
  - intros labels coords units h m h' H.
    destruct (ClassInvariant.init_ok_inv get_mass _ _ _ _ _ _ H) as [ms [Hms [_ ->]]].
    split; [|reflexivity]. simpl.
    apply ClassInvariant.get_masses_Forall2. exact Hms.
  - intros m target h m' h' [HF Hn] H.
    destruct (SetUnitsFacts.set_units_frame_facts bohr2angstrom _ _ _ _ _ H) as [E1 [E2 [E3 _]]].
    unfold ClassInvariant.masses_ok. rewrite E1, E2, E3. auto.
  - intros m c u h m' h' [HF Hn] H. inversion H; subst.
    split; assumption.
  - intros m h m' h' H.
    destruct (ClassInvariant.copy_ok_inv get_mass _ _ _ _ H) as [ms [Hms [_ ->]]].
    split; [|reflexivity]. simpl.
    apply ClassInvariant.get_masses_Forall2. exact Hms.
Qed.

(** X13. The units of every object the constructor or [copy]
    returns are "angstrom" or "bohr"; [set_units], and [set_coordinates]
    without a units argument, keep valid units valid. *)
Theorem units_stay_valid :
  (forall labels coords units h m h',
      Molecule.__init__ get_mass labels coords units h = (Py.Ok m, h') ->
      Molecule.valid_units (Molecule.units m) = true)
  /\ (forall m h m' h',
         Molecule.copy get_mass m h = (Py.Ok m', h') ->
         Molecule.valid_units (Molecule.units m') = true)
  /\ (forall m target h m' h',
         Molecule.valid_units (Molecule.units m) = true ->
         Molecule.set_units bohr2angstrom m target h = (Py.Ok m', h') ->
         Molecule.valid_units (Molecule.units m') = true)
  /\ (forall m c h m' h',
         Molecule.valid_units (Molecule.units m) = true ->
         Molecule.set_coordinates m c None h = (Py.Ok m', h') ->
         Molecule.valid_units (Molecule.units m') = true).
Proof.
  split; [|split; [|split]].
  - intros labels coords units h m h' H.
    destruct (ClassInvariant.init_ok_inv get_mass _ _ _ _ _ _ H) as [ms [_ [V ->]]].
    exact V.
  - intros m h m' h' H.
    destruct (ClassInvariant.copy_ok_inv get_mass _ _ _ _ H) as [ms [_ [V ->]]].
    exact V.
  - intros m target h m' h' V H.
    destruct (nth_error h (Molecule.coordinates m)) as [a|] eqn:Ha.
    + rewrite (SetUnitsFacts.set_units_eval bohr2angstrom m target h a Ha) in H.
      destruct (SetUnitsFacts.to_angstrom m target);
        [|destruct (SetUnitsFacts.to_bohr m target)];
        inversion H; subst; auto.
    + destruct (SetUnitsFacts.set_units_dangling bohr2angstrom m target h m' h' Ha H)
        as [_ [_ [-> _]]]. exact V.
  - intros m c h m' h' V H. inversion H; subst. exact V.
Qed.

(** X14. The constructor does not distinguish
    the case of its units argument: [units] and [units.lower()] give the
    same object, or the same exception, and the same heap. *)
Theorem init_ignores_case_of_units labels coords units h :
  Molecule.__init__ get_mass labels coords units h
  = Molecule.__init__ get_mass labels coords (Py.lower units) h.
Proof.
  unfold Molecule.__init__. rewrite UnitsFacts.lower_idempotent. reflexivity.
Qed.

End Invariants.

(* ================================================================== *)
(** * The further properties on concrete molecules *)
(* ================================================================== *)

Module MoreExamples.

(** Three labels over an array of two rows, the second of four
    components. *)
Definition ragged : Molecule.t :=
  Molecule.mk Examples.water_labels 0 "angstrom"
    [15.99491461956; 1.00782503207; 1.00782503207]%float 3.

Definition ragged_heap : Py.heap :=
  [[[0; 0; -0.0647162893]; [0; -0.7490459967; 0.5135472375; 1]]%float].

(** The water molecule with a fourth column, and with a short row. *)
Definition water_wide : Py.ndarray :=
  [[0; 0; -0.0647162893; 7];
   [0; -0.7490459967; 0.5135472375; 8];
   [0; 0.7490459967; 0.5135472375; 9]]%float.

Definition water_short : Py.ndarray :=
  [[0; 0; -0.0647162893];
   [0; -0.7490459967];
   [0; 0.7490459967; 0.5135472375]]%float.

(** The water molecule with its coordinates taken as bohr, and with
    units no constructor accepts. *)
Definition water_bohr : Molecule.t :=
  Molecule.mk Examples.water_labels 0 "bohr"
    [15.99491461956; 1.00782503207; 1.00782503207]%float 3.

Definition water_meters : Molecule.t :=
  Molecule.mk Examples.water_labels 0 "meters"
    [15.99491461956; 1.00782503207; 1.00782503207]%float 3.

End MoreExamples.

Lemma iter_yields_zip_witness :
  nth_error MoreExamples.ragged_heap (Molecule.coordinates MoreExamples.ragged)
  = Some [[0; 0; -0.0647162893]; [0; -0.7490459967; 0.5135472375; 1]]%float
  /\ exists items,
      Molecule.__iter__ MoreExamples.ragged MoreExamples.ragged_heap
      = (Py.Ok items, MoreExamples.ragged_heap)
      /\ List.length items = Nat.min 3 2
      /\ map fst items = firstn (List.length items) Examples.water_labels
      /\ map snd items
         = firstn (List.length items)
             [[0; 0; -0.0647162893]; [0; -0.7490459967; 0.5135472375; 1]]%float.
Proof.
  split; [reflexivity|].
  exact (iter_yields_zip MoreExamples.ragged MoreExamples.ragged_heap _ eq_refl).
Defined.

Lemma str_needs_three_components_witness :
  nth_error [MoreExamples.water_short] (Molecule.coordinates Examples.water)
  = Some MoreExamples.water_short
  /\ Exists (fun it : string * list float => List.length (snd it) < 3)
       (Py.zip (Molecule.labels Examples.water) MoreExamples.water_short)
  /\ exists msg,
      Molecule.__str__ Examples.water [MoreExamples.water_short]
      = (Py.Raise (Py.IndexError msg), [MoreExamples.water_short]).
Proof.
  assert (Hex : Exists (fun it : string * list float => List.length (snd it) < 3)
                  (Py.zip (Molecule.labels Examples.water) MoreExamples.water_short)).
  { apply Exists_cons_tl. apply Exists_cons_hd. simpl. lia. }
  split; [reflexivity|]. split; [exact Hex|].
  exact (proj2 (str_needs_three_components Examples.water
                  [MoreExamples.water_short] MoreExamples.water_short eq_refl) Hex).
Defined.

Lemma str_reads_three_columns_witness :
  nth_error Examples.water_heap (Molecule.coordinates Examples.water)
  = Some Examples.water_coordinates
  /\ nth_error [MoreExamples.water_wide] (Molecule.coordinates Examples.water)
     = Some MoreExamples.water_wide
  /\ map (firstn 3) Examples.water_coordinates
     = map (firstn 3) MoreExamples.water_wide
  /\ fst (Molecule.__str__ Examples.water Examples.water_heap)
     = fst (Molecule.__str__ Examples.water [MoreExamples.water_wide]).
Proof.
  split; [reflexivity|]. split; [reflexivity|]. split; [reflexivity|].
  exact (str_reads_three_columns Examples.water Examples.water_heap
           [MoreExamples.water_wide] Examples.water_coordinates
           MoreExamples.water_wide eq_refl eq_refl eq_refl).
Defined.

Lemma set_units_idempotent_witness :
  Molecule.set_units Examples.bohr2angstrom Examples.water "bohr" Examples.water_heap
  = (Py.Ok (Molecule.with_units Examples.water "bohr"),
     [map (map (fun x => (x / Examples.bohr2angstrom)%float))
        Examples.water_coordinates])
  /\ Molecule.set_units Examples.bohr2angstrom
       (Molecule.with_units Examples.water "bohr") "bohr"
       [map (map (fun x => (x / Examples.bohr2angstrom)%float))
          Examples.water_coordinates]
     = (Py.Ok (Molecule.with_units Examples.water "bohr"),
        [map (map (fun x => (x / Examples.bohr2angstrom)%float))
           Examples.water_coordinates]).
Proof.
  split; [reflexivity|].
  exact (set_units_idempotent Examples.bohr2angstrom Examples.water "bohr"
           Examples.water_heap _ _ eq_refl).
Defined.

Lemma set_units_inert_on_invalid_units_witness :
  Molecule.valid_units (Molecule.units MoreExamples.water_meters) = false
  /\ Molecule.set_units Examples.bohr2angstrom MoreExamples.water_meters "bohr"
       Examples.water_heap
     = (Py.Ok MoreExamples.water_meters, Examples.water_heap).
Proof.
  split; [reflexivity|].
  exact (set_units_inert_on_invalid_units Examples.bohr2angstrom
           MoreExamples.water_meters "bohr" Examples.water_heap eq_refl).
Defined.

Lemma set_units_frame_witness :
  Molecule.set_units Examples.bohr2angstrom Examples.water "bohr"
    [Examples.water_coordinates; MoreExamples.water_wide]
  = (Py.Ok (Molecule.with_units Examples.water "bohr"),
     [map (map (fun x => (x / Examples.bohr2angstrom)%float))
        Examples.water_coordinates; MoreExamples.water_wide])
  /\ forall r, r <> Molecule.coordinates Examples.water ->
       nth_error [map (map (fun x => (x / Examples.bohr2angstrom)%float))
                    Examples.water_coordinates; MoreExamples.water_wide] r
       = nth_error [Examples.water_coordinates; MoreExamples.water_wide] r.
Proof.
  split; [reflexivity|].
  exact (proj2 (proj2 (proj2 (proj2 (proj2 (proj2
           (set_units_frame Examples.bohr2angstrom Examples.water "bohr"
              [Examples.water_coordinates; MoreExamples.water_wide] _ _
              eq_refl))))))).
Defined.

Lemma set_coordinates_shares_array_witness :
  nth_error [Examples.water_coordinates; MoreExamples.water_wide] 1
  = Some MoreExamples.water_wide
  /\ exists m1 m2 h2,
      Molecule.set_coordinates Examples.water 1 (Some "bohr"%string)
        [Examples.water_coordinates; MoreExamples.water_wide]
      = (Py.Ok m1, [Examples.water_coordinates; MoreExamples.water_wide])
      /\ Molecule.set_units Examples.bohr2angstrom m1 "angstrom"
           [Examples.water_coordinates; MoreExamples.water_wide]
         = (Py.Ok m2, h2)
      /\ Molecule.coordinates m2 = 1
      /\ nth_error h2 1
         = Some (map (map (fun x => (x * Examples.bohr2angstrom)%float))
                   MoreExamples.water_wide).
Proof.
  split; [reflexivity|].
  exact (proj1 (set_coordinates_shares_array Examples.bohr2angstrom Examples.water 1
                  [Examples.water_coordinates; MoreExamples.water_wide]
                  MoreExamples.water_wide eq_refl)).
Defined.

Lemma init_copies_its_array_witness :
  Molecule.__init__ Examples.mass_table Examples.water_labels (Py.NdArray 0)
    "angstrom" Examples.water_heap
  = (Py.Ok (Molecule.mk Examples.water_labels 1 "angstrom"
              [15.99491461956; 1.00782503207; 1.00782503207]%float 3),
     [Examples.water_coordinates; Examples.water_coordinates])
  /\ forall target m2 h2,
      Molecule.set_units Examples.bohr2angstrom
        (Molecule.mk Examples.water_labels 1 "angstrom"
           [15.99491461956; 1.00782503207; 1.00782503207]%float 3)
        target [Examples.water_coordinates; Examples.water_coordinates]
      = (Py.Ok m2, h2) ->
      nth_error h2 0 = nth_error Examples.water_heap 0.
Proof.
  split; [reflexivity|].
  exact (proj2 (proj2 (proj2 (proj2
           (init_copies_its_array Examples.mass_table Examples.bohr2angstrom
              Examples.water_labels 0 "angstrom" Examples.water_heap _ _
              eq_refl))))).
Defined.

Lemma copy_has_same_text_witness :
  Invariant.wf Examples.mass_table Examples.water_heap Examples.water
  /\ nth_error Examples.water_heap (Molecule.coordinates Examples.water)
     = Some Examples.water_coordinates
  /\ Molecule.valid_units (Molecule.units Examples.water) = true
  /\ exists m' h',
      Molecule.copy Examples.mass_table Examples.water Examples.water_heap
      = (Py.Ok m', h')
      /\ fst (Molecule.__str__ m' h')
         = fst (Molecule.__str__ Examples.water Examples.water_heap).
Proof.
  split; [exact water_wf|]. split; [reflexivity|]. split; [reflexivity|].
  exact (copy_has_same_text Examples.mass_table Examples.water Examples.water_heap
           Examples.water_coordinates water_wf eq_refl eq_refl).
Defined.

Lemma set_units_there_and_back_from_bohr_witness :
  ((1 # 2) <= B64.to_Q Examples.bohr2angstrom)%Q
  /\ (B64.to_Q Examples.bohr2angstrom <= 1)%Q
  /\ Molecule.units MoreExamples.water_bohr = "bohr"%string
  /\ nth_error Examples.water_heap (Molecule.coordinates MoreExamples.water_bohr)
     = Some Examples.water_coordinates
  /\ Forall (Forall B64.in_range) Examples.water_coordinates
  /\ exists m1 h1 m2 h2 a2,
      Molecule.set_units Examples.bohr2angstrom MoreExamples.water_bohr "angstrom"
        Examples.water_heap = (Py.Ok m1, h1)
      /\ Molecule.set_units Examples.bohr2angstrom m1 "bohr" h1 = (Py.Ok m2, h2)
      /\ m2 = MoreExamples.water_bohr
      /\ nth_error h2 (Molecule.coordinates m2) = Some a2
      /\ Forall2 (Forall2 (B64.close (B64.pow2 (-51)))) Examples.water_coordinates a2.
Proof.
  assert (H1 : ((1 # 2) <= B64.to_Q Examples.bohr2angstrom)%Q)
    by (apply Qle_bool_imp_le; vm_compute; reflexivity).
  assert (H2 : (B64.to_Q Examples.bohr2angstrom <= 1)%Q)
    by (apply Qle_bool_imp_le; vm_compute; reflexivity).
  split; [exact H1|]. split; [exact H2|]. split; [reflexivity|].
  split; [reflexivity|]. split; [exact water_in_range|].
  exact (set_units_there_and_back_from_bohr Examples.bohr2angstrom
           MoreExamples.water_bohr Examples.water_heap Examples.water_coordinates
           H1 H2 eq_refl eq_refl water_in_range).
Defined.

Lemma masses_follow_labels_witness :
  exists m h',
    Molecule.__init__ Examples.mass_table Examples.water_labels
      (Py.Nested Examples.water_coordinates) "angstrom" [] = (Py.Ok m, h')
    /\ ClassInvariant.masses_ok Examples.mass_table m.
Proof.
  eexists _, _. split; [reflexivity|].
  exact (proj1 (masses_follow_labels Examples.mass_table Examples.bohr2angstrom)
           Examples.water_labels (Py.Nested Examples.water_coordinates)
           "angstrom"%string [] _ _ eq_refl).
Defined.

Lemma units_stay_valid_witness :
  exists m h',
    Molecule.__init__ Examples.mass_table Examples.water_labels
      (Py.Nested Examples.water_coordinates) "BOHR" [] = (Py.Ok m, h')
    /\ Molecule.valid_units (Molecule.units m) = true.
Proof.
  eexists _, _. split; [reflexivity|].
  exact (proj1 (units_stay_valid Examples.mass_table Examples.bohr2angstrom)
           Examples.water_labels (Py.Nested Examples.water_coordinates)
           "BOHR"%string [] _ _ eq_refl).
Defined.

(* ================================================================== *)
(** * Properties: the text of numbers *)
(* ================================================================== *)

Module FmtFacts.
Import Fmt.

Lemma digit_char_digit d : (0 <= d < 10)%Z ->
  is_digit (digit_char d) = true /\ digit_val (digit_char d) = d.
Proof.
  intros H.
  assert (E : (d = 0 \/ d = 1 \/ d = 2 \/ d = 3 \/ d = 4 \/ d = 5 \/ d = 6
               \/ d = 7 \/ d = 8 \/ d = 9)%Z) by lia.
  repeat (destruct E as [E|E]; [subst d; split; reflexivity|]).
  subst d; split; reflexivity.
Qed.

Lemma length_append (a b : string) :
  String.length (a ++ b) = String.length a + String.length b.
Proof. induction a; simpl; congruence. Qed.

Lemma all_chars_app p a b :
  all_chars p (a ++ b) = (all_chars p a && all_chars p b)%bool.
Proof. induction a; simpl; [reflexivity|]. rewrite IHa. apply andb_assoc. Qed.

Lemma all_chars_impl (p q : ascii -> bool) s :
  (forall c, p c = true -> q c = true) ->
  all_chars p s = true -> all_chars q s = true.
Proof.
  intros Hpq. induction s; simpl; [reflexivity|].
  intros H. apply andb_prop in H. destruct H as [H1 H2].
  rewrite (Hpq _ H1), (IHs H2). reflexivity.
Qed.

Lemma parse_digits_app s t acc :
  parse_digits (s ++ t) acc
  = match parse_digits s acc with
    | Some a => parse_digits t a
    | None => None
    end.
Proof.
  revert acc; induction s as [|c s IH]; intros acc; simpl; [reflexivity|].
  destruct (is_digit c); [apply IH|reflexivity].
Qed.

Lemma fixed_digits_length w n : String.length (fixed_digits w n) = w.
Proof.
  revert n; induction w as [|w IH]; intros n; cbn [fixed_digits]; [reflexivity|].
  rewrite length_append, IH. cbn [String.length]. lia.
Qed.

Lemma fixed_digits_all_digits w n : all_chars is_digit (fixed_digits w n) = true.
Proof.
  revert n; induction w as [|w IH]; intros n; cbn [fixed_digits]; [reflexivity|].
  rewrite all_chars_app, IH. cbn [all_chars andb].
  destruct (digit_char_digit (n mod 10)) as [H _].
  { apply Z.mod_pos_bound. lia. }
  rewrite H. reflexivity.
Qed.

Lemma parse_fixed_digits w : forall n acc,
  (0 <= n < 10 ^ Z.of_nat w)%Z ->
  parse_digits (fixed_digits w n) acc = Some (acc * 10 ^ Z.of_nat w + n)%Z.
Proof.
  induction w as [|w IH]; intros n acc Hn.
  - cbn [fixed_digits parse_digits]. change (10 ^ Z.of_nat 0)%Z with 1%Z in *.
    f_equal. lia.
  - rewrite Nat2Z.inj_succ, Z.pow_succ_r in * by lia.
    cbn [fixed_digits]. rewrite parse_digits_app.
    rewrite IH.
    2:{ split; [apply Z.div_pos; lia|]. apply Z.div_lt_upper_bound; lia. }
    cbn [parse_digits].
    destruct (digit_char_digit (n mod 10)) as [H1 H2].
    { apply Z.mod_pos_bound. lia. }
    rewrite H1, H2. f_equal.
    pose proof (Z.div_mod n 10). lia.
Qed.

Lemma ndigits_fuel_bound f : forall n,
  (0 <= n < 2 ^ (Z.of_nat f + 1))%Z ->
  (n < 10 ^ Z.of_nat (ndigits_fuel f n))%Z /\ 1 <= ndigits_fuel f n.
Proof.
  induction f as [|f IH]; intros n Hn.
  - simpl in *. lia.
  - simpl ndigits_fuel. destruct (Z.ltb_spec n 10) as [Hlt|Hge].
    + simpl. lia.
    + rewrite Nat2Z.inj_succ in Hn.
      replace (Z.succ (Z.of_nat f) + 1)%Z with (Z.succ (Z.of_nat f + 1)) in Hn by lia.
      rewrite Z.pow_succ_r in Hn by lia.
      destruct (IH (n / 10)%Z) as [H1 H2].
      { split; [apply Z.div_pos; lia|]. apply Z.div_lt_upper_bound; lia. }
      split; [|lia].
      rewrite Nat2Z.inj_succ, Z.pow_succ_r by lia.
      pose proof (Z.div_mod n 10). pose proof (Z.mod_pos_bound n 10). lia.
Qed.

Lemma ndigits_bound n : (0 <= n)%Z ->
  (n < 10 ^ Z.of_nat (ndigits n))%Z /\ 1 <= ndigits n.
Proof.
  intros Hn. unfold ndigits. apply ndigits_fuel_bound.
  rewrite Z2Nat.id by apply Z.log2_nonneg.
  destruct (Z.eq_dec n 0) as [->|]; [simpl; lia|].
  pose proof (Z.log2_spec n). 
  replace (Z.log2 n + 1)%Z with (Z.succ (Z.log2 n)) by lia. lia.
Qed.

Lemma parse_decimal n acc : (0 <= n)%Z ->
  parse_digits (decimal n) acc = Some (acc * 10 ^ Z.of_nat (ndigits n) + n)%Z.
Proof.
  intros Hn. unfold decimal. apply parse_fixed_digits.
  destruct (ndigits_bound n Hn). lia.
Qed.


(** ** Rounding to an integer *)

Local Open Scope Q_scope.

Lemma round_half_even_spec q :
  Qabs (inject_Z (B64.round_half_even q) - q) <= 1 # 2.
Proof.
  unfold B64.round_half_even.
  pose proof (Qfloor_le q) as Hlo. pose proof (Qlt_floor q) as Hhi.
  rewrite inject_Z_plus in Hhi. change (inject_Z 1) with 1 in Hhi.
  assert (E : inject_Z (Qfloor q + 1) == inject_Z (Qfloor q) + 1)
    by (rewrite inject_Z_plus; reflexivity).
  destruct (Qcompare_spec (q - inject_Z (Qfloor q)) (1 # 2)) as [He|Hl|Hg].
  - destruct (Z.even (Qfloor q)); apply Qabs_Qle_condition; rewrite ?E; lra.
  - apply Qabs_Qle_condition. lra.
  - apply Qabs_Qle_condition. rewrite E. lra.
Qed.

Lemma round_half_even_nonneg q : 0 <= q -> (0 <= B64.round_half_even q)%Z.
Proof.
  intros Hq. unfold B64.round_half_even.
  assert (0 <= Qfloor q)%Z.
  { change 0%Z with (Qfloor 0). apply Qfloor_resp_le. exact Hq. }
  destruct (Qcompare (q - inject_Z (Qfloor q)) (1 # 2)); [|lia|lia].
  destruct (Z.even (Qfloor q)); lia.
Qed.

Local Close Scope Q_scope.

(** ** The text of a finite number *)

(** Sign, integer digits, point and ten fractional digits of the scaled
    integer [N]. *)
Definition fixed_text (s : bool) (N : Z) : string :=
  (sign_str s ++ decimal (N / 10 ^ 10) ++ "." ++ fixed_digits 10 (N mod 10 ^ 10))%string.

Lemma format_f_finite x s m e :
  Prim2SF x = S754_finite s m e ->
  format_f 10 x
  = fixed_text s (B64.round_half_even
                    (inject_Z (Zpos m) * B64.pow2 e * inject_Z (10 ^ 10))).
Proof. intros E. unfold format_f. rewrite E. reflexivity. Qed.

Lemma format_f_zero x s :
  Prim2SF x = S754_zero s -> format_f 10 x = fixed_text s 0.
Proof. intros E. unfold format_f. rewrite E. destruct s; reflexivity. Qed.


(** ** Reading the text of a finite number *)

Lemma split_at_none p s :
  all_chars (fun c => negb (p c)) s = true -> split_at p s = (s, None).
Proof.
  induction s as [|c s IH]; cbn [all_chars split_at]; [reflexivity|].
  intros H. apply andb_prop in H. destruct H as [H1 H2].
  apply negb_true_iff in H1. rewrite H1, (IH H2). reflexivity.
Qed.

Lemma split_at_found p a c b :
  all_chars (fun c => negb (p c)) a = true -> p c = true ->
  split_at p (a ++ String c b) = (a, Some b).
Proof.
  intros Ha Hc. induction a as [|d a IH]; cbn [append all_chars split_at] in *.
  - rewrite Hc. reflexivity.
  - apply andb_prop in Ha. destruct Ha as [H1 H2].
    apply negb_true_iff in H1. rewrite H1, (IH H2). reflexivity.
Qed.

Lemma digit_facts c :
  is_digit c = true ->
  is_exp_mark c = false /\ is_char 46 c = false /\ is_char 45 c = false
  /\ is_char 43 c = false /\ Py.lower_ascii c = c
  /\ Ascii.eqb c "i" = false /\ Ascii.eqb c "n" = false.
Proof.
  destruct c as [[] [] [] [] [] [] [] []]; intros H; try discriminate H;
    repeat split; reflexivity.
Qed.

Lemma nonempty_head p s :
  1 <= String.length s -> all_chars p s = true ->
  exists c r, s = String c r /\ p c = true.
Proof.
  destruct s as [|c r]; cbn [String.length all_chars]; [lia|].
  intros _ H. apply andb_prop in H. destruct H. eauto.
Qed.

Lemma decimal_length n : String.length (decimal n) = ndigits n.
Proof. apply fixed_digits_length. Qed.

Lemma decimal_all_digits n : all_chars is_digit (decimal n) = true.
Proof. apply fixed_digits_all_digits. Qed.

Lemma digits_no (p : ascii -> bool) s :
  (forall c, is_digit c = true -> p c = false) ->
  all_chars is_digit s = true -> all_chars (fun c => negb (p c)) s = true.
Proof.
  intros Hp. apply all_chars_impl. intros c Hc. now rewrite (Hp c Hc).
Qed.

Lemma parse_nonempty_digits_nonempty s :
  s <> EmptyString -> parse_nonempty_digits s = parse_digits s 0.
Proof. destruct s; [congruence|reflexivity]. Qed.

Definition parsed (s : bool) (N : Z) : spec_float :=
  match N with
  | Zpos p => B64.SFratio s p (10 ^ 10)
  | _ => S754_zero s
  end.

Lemma float_of_string_fixed_text s N :
  (0 <= N)%Z ->
  float_of_string (fixed_text s N) = Some (SF2Prim (parsed s N)).
Proof.
  intros HN.
  set (ip := (N / 10 ^ 10)%Z). set (fp := (N mod 10 ^ 10)%Z).
  assert (Hip : (0 <= ip)%Z) by (apply Z.div_pos; lia).
  assert (Hfp : (0 <= fp < 10 ^ 10)%Z) by (apply Z.mod_pos_bound; lia).
  set (body := (decimal ip ++ "." ++ fixed_digits 10 fp)%string).
  assert (Etext : fixed_text s N = (sign_str s ++ body)%string) by reflexivity.
  destruct (ndigits_bound ip Hip) as [Hipw Hnd].
  destruct (nonempty_head is_digit (decimal ip)) as [c [r [Edec Hc]]].
  { rewrite decimal_length. exact Hnd. }
  { apply decimal_all_digits. }
  destruct (digit_facts c Hc) as [Fexp [Fpt [Fminus [Fplus [Flow [Fi Fn]]]]]].
  assert (Ebody : body = String c (r ++ "." ++ fixed_digits 10 fp)%string).
  { unfold body. rewrite Edec. reflexivity. }
  assert (Hstrip : strip_sign (fixed_text s N) = (s, body)).
  { rewrite Etext. destruct s; cbn [sign_str append].
    - reflexivity.
    - rewrite Ebody. cbn [strip_sign]. rewrite Fminus, Fplus. reflexivity. }
  assert (Hdigits_body :
            all_chars (fun c => is_digit c || is_char 46 c)%bool body = true).
  { unfold body. rewrite !all_chars_app. cbn [all_chars].
    rewrite (all_chars_impl is_digit _ (decimal ip)), 
            (all_chars_impl is_digit _ (fixed_digits 10 fp)).
    - reflexivity.
    - intros d Hd. rewrite Hd. reflexivity.
    - apply fixed_digits_all_digits.
    - intros d Hd. rewrite Hd. reflexivity.
    - apply decimal_all_digits. }
  assert (Hexp : split_at is_exp_mark body = (body, None)).
  { apply split_at_none. eapply all_chars_impl; [|exact Hdigits_body].
    intros d Hd. apply orb_prop in Hd. destruct Hd as [Hd|Hd].
    - destruct (digit_facts d Hd) as [-> _]. reflexivity.
    - destruct d as [[] [] [] [] [] [] [] []]; try discriminate Hd; reflexivity. }
  assert (Hpt : split_at (is_char 46) body
                = (decimal ip, Some (fixed_digits 10 fp))).
  { unfold body. apply split_at_found; [|reflexivity].
    apply digits_no; [|apply decimal_all_digits].
    intros d Hd. destruct (digit_facts d Hd) as [_ [-> _]]. reflexivity. }
  assert (Hparse : parse_nonempty_digits (decimal ip ++ fixed_digits 10 fp) = Some N).
  { rewrite parse_nonempty_digits_nonempty
      by (rewrite Edec; cbn [append]; discriminate).
    rewrite parse_digits_app, (parse_decimal ip 0 Hip).
    rewrite (parse_fixed_digits 10 fp _ Hfp). f_equal.
    change (Z.of_nat 10) with 10%Z. unfold ip, fp.
    pose proof (Z.div_mod N (10 ^ 10)). lia. }
  assert (Hinf : String.eqb (Py.lower body) "inf" = false).
  { rewrite Ebody. cbn [Py.lower String.eqb]. rewrite Flow, Fi. reflexivity. }
  assert (Hinfinity : String.eqb (Py.lower body) "infinity" = false).
  { rewrite Ebody. cbn [Py.lower String.eqb]. rewrite Flow, Fi. reflexivity. }
  assert (Hnan : String.eqb (Py.lower body) "nan" = false).
  { rewrite Ebody. cbn [Py.lower String.eqb]. rewrite Flow, Fn. reflexivity. }
  unfold float_of_string. rewrite Hstrip. cbv zeta.
  rewrite Hinf, Hinfinity, Hnan. cbn [orb].
  rewrite Hexp, Hpt, Hparse.
  rewrite fixed_digits_length.
  change (0 - Z.of_nat 10)%Z with (-10)%Z.
  change (Z.max (-10) 0) with 0%Z. change (Z.max (- -10) 0) with 10%Z.
  change (10 ^ 0)%Z with 1%Z. rewrite Z.mul_1_r.
  unfold parsed. destruct N; reflexivity.
Qed.


(** ** The value read back *)

Lemma sign_str_length s : String.length (sign_str s) <= 1.
Proof. destruct s; simpl; lia. Qed.

Lemma fixed_text_fits s N :
  (0 <= N)%Z -> String.length (fixed_text s N) <= 15 -> (N < 10 ^ 14)%Z.
Proof.
  intros HN Hlen. unfold fixed_text in Hlen.
  rewrite !length_append, decimal_length, fixed_digits_length in Hlen.
  cbn [String.length] in Hlen.
  assert (Hip : (0 <= N / 10 ^ 10)%Z) by (apply Z.div_pos; lia).
  destruct (ndigits_bound _ Hip) as [Hb _].
  assert (Hw : (10 ^ Z.of_nat (ndigits (N / 10 ^ 10)) <= 10 ^ 4)%Z).
  { apply Z.pow_le_mono_r; lia. }
  pose proof (Z.div_mod N (10 ^ 10)).
  pose proof (Z.mod_pos_bound N (10 ^ 10)).
  change (10 ^ 14)%Z with (10 ^ 4 * 10 ^ 10)%Z. lia.
Qed.

Lemma Prim2SF_parsed_zero s :
  Prim2SF (SF2Prim (S754_zero s)) = S754_zero s.
Proof. apply Prim2SF_SF2Prim. reflexivity. Qed.

Local Open Scope Q_scope.

Lemma tiny_le_step : B64.pow2 (-1022) <= 1 # 10000000000.
Proof. apply Qle_bool_imp_le. vm_compute. reflexivity. Qed.

Lemma field_lt_huge : 10000 # 1 <= B64.pow2 1022.
Proof. apply Qle_bool_imp_le. vm_compute. reflexivity. Qed.

(** The number read back from the text of the scaled integer [N > 0]. *)
Lemma parsed_value s p :
  (Zpos p < 10 ^ 14)%Z ->
  exists v,
    Prim2SF (SF2Prim (parsed s (Zpos p))) = parsed s (Zpos p)
    /\ B64.SFfinite (parsed s (Zpos p)) = true
    /\ B64.SF2Q (parsed s (Zpos p)) == B64.signed s v
    /\ Qabs (v - inject_Z (Zpos p) * (1 # 10000000000))
       <= B64.pow2 (-53) * (inject_Z (Zpos p) * (1 # 10000000000)).
Proof.
  intros Hp. cbn [parsed]. unfold B64.SFratio.
  set (r := inject_Z (Zpos p) * (1 # 10000000000)).
  assert (Hr : r * (inject_Z (Zpos (10 ^ 10)) * B64.pow2 0)
               == inject_Z (Zpos p) * B64.pow2 0).
  { unfold r. change (B64.pow2 0) with 1.
    change (inject_Z (Zpos (10 ^ 10))) with (10000000000 # 1). field. }
  assert (H1 : 1 <= inject_Z (Zpos p)) by (apply B64Facts.inject_Z_ge1; lia).
  assert (H2 : inject_Z (Zpos p) < inject_Z (10 ^ 14))
    by (apply B64Facts.inject_Z_lt; exact Hp).
  change (inject_Z (10 ^ 14)) with (100000000000000 # 1) in H2.
  pose proof tiny_le_step. pose proof field_lt_huge.
  assert (P : B64.pow2 1022 < B64.pow2 1023) by (apply B64Facts.pow2_lt; lia).
  destruct (B64Facts.SFdiv_error s p 0 false (10 ^ 10) 0 r Hr)
    as [v [F [V [S E]]]]; [unfold r; lra|unfold r; lra|].
  exists v. split; [apply Prim2SF_SF2Prim; exact V|].
  split; [exact F|]. split; [|exact E].
  rewrite S. rewrite xorb_false_r. reflexivity.
Qed.

Lemma within_of_scaled (X v Nq : Q) :
  0 <= Nq -> Nq < 100000000000000 # 1 ->
  Qabs (Nq - X * (10000000000 # 1)) <= 1 # 2 ->
  Qabs (v - Nq * (1 # 10000000000))
  <= (1 # 9007199254740992) * (Nq * (1 # 10000000000)) ->
  Qabs (v - X) <= 1 # 10000000000.
Proof.
  intros H0 H1 H2 H3.
  apply Qabs_Qle_condition in H2, H3. apply Qabs_Qle_condition. lra.
Qed.

(** What [__str__] writes for a number that fits its field reads back as
    a finite number within [10^-10] of it. *)
Lemma parse_format_within x :
  fits x = true ->
  exists x',
    float_of_string (format_f 10 x) = Some x'
    /\ B64.within (1 # 10000000000) x x'.
Proof.
  unfold fits, B64.within. unfold B64.finite, B64.to_Q. intros H.
  apply andb_prop in H. destruct H as [Hfin Hlen]. apply Nat.leb_le in Hlen.
  destruct (Prim2SF x) as [s|s| |s m e] eqn:Ex; try discriminate.
  - rewrite (format_f_zero x s Ex) in *.
    rewrite (float_of_string_fixed_text s 0) by lia.
    eexists; split; [reflexivity|]. cbn [parsed].
    rewrite Prim2SF_parsed_zero. split; [reflexivity|].
    apply Qle_bool_imp_le. reflexivity.
  - rewrite (format_f_finite x s m e Ex) in *.
    set (X := inject_Z (Zpos m) * B64.pow2 e) in *.
    assert (HX : 0 < X).
    { apply Qmult_lt_0_compat;
        [apply B64Facts.inject_Z_pos; lia|apply B64Facts.pow2_pos]. }
    set (N := B64.round_half_even (X * inject_Z (10 ^ 10))) in *.
    assert (HN : (0 <= N)%Z).
    { apply round_half_even_nonneg.
      change (inject_Z (10 ^ 10)) with (10000000000 # 1). 
      apply Qmult_le_0_compat; lra. }
    pose proof (round_half_even_spec (X * inject_Z (10 ^ 10))) as Hrne.
    fold N in Hrne. change (inject_Z (10 ^ 10)) with (10000000000 # 1) in Hrne.
    pose proof (fixed_text_fits s N HN Hlen) as HN14.
    rewrite (float_of_string_fixed_text s N HN).
    eexists; split; [reflexivity|].
    rewrite B64Facts.SF2Q_finite. fold X.
    destruct N as [|p|p] eqn:EN; [| |lia].
    + cbn [parsed]. rewrite Prim2SF_parsed_zero. split; [reflexivity|].
      cbn [B64.SF2Q]. change (inject_Z 0) with 0 in Hrne.
      apply Qabs_Qle_condition in Hrne.
      setoid_replace (0 - B64.signed s X) with (B64.signed (negb s) X)
        by (destruct s; simpl; ring).
      rewrite B64Facts.Qabs_signed. apply Qabs_Qle_condition. lra.
    + destruct (parsed_value s p HN14) as [v [EP [F [S E]]]].
      rewrite EP. split; [exact F|]. rewrite S.
      setoid_replace (B64.signed s v - B64.signed s X) with (B64.signed s (v - X))
        by (destruct s; simpl; ring).
      rewrite B64Facts.Qabs_signed.
      rewrite B64Facts.pow2_m53 in E.
      apply (within_of_scaled X v (inject_Z (Zpos p))).
      * apply B64Facts.inject_Z_nonneg. lia.
      * change (100000000000000 # 1) with (inject_Z (10 ^ 14)).
        apply B64Facts.inject_Z_lt. exact HN14.
      * exact Hrne.
      * exact E.
Qed.

Local Close Scope Q_scope.

End FmtFacts.

(* ================================================================== *)
(** * Lines and tokens *)
(* ================================================================== *)

Module ParseFacts.
Import CoordinateString.

Definition not_space (c : ascii) : bool := negb (is_space c).
Definition not_newline (c : ascii) : bool := negb (is_newline c).

(** A word: non-empty and free of whitespace. *)
Definition is_word (w : string) : bool :=
  (negb (String.eqb w EmptyString) && Fmt.all_chars not_space w)%bool.

Lemma not_space_not_newline c : not_space c = true -> not_newline c = true.
Proof.
  destruct c as [[] [] [] [] [] [] [] []]; intros H; try discriminate H; reflexivity.
Qed.

Lemma snoc_append cur c w : (snoc cur c ++ w = cur ++ String c w)%string.
Proof. unfold snoc. rewrite IterFacts.append_assoc. reflexivity. Qed.

Lemma split_lines_app w : forall s cur,
  Fmt.all_chars not_newline w = true ->
  split_lines (w ++ s) cur = split_lines s (cur ++ w).
Proof.
  induction w as [|c w IH]; intros s cur H; cbn [append Fmt.all_chars] in *.
  - now rewrite IterFacts.append_nil_r.
  - apply andb_prop in H. destruct H as [H1 H2].
    cbn [split_lines]. unfold not_newline in H1. apply negb_true_iff in H1.
    rewrite H1, (IH _ _ H2), snoc_append. reflexivity.
Qed.

Lemma split_lines_line w s :
  Fmt.all_chars not_newline w = true ->
  split_lines (w ++ Examples.nl ++ s) EmptyString = w :: split_lines s EmptyString.
Proof.
  intros H. rewrite (split_lines_app w _ _ H). reflexivity.
Qed.

Lemma split_lines_concat ws :
  Forall (fun w => Fmt.all_chars not_newline w = true) ws ->
  split_lines (String.concat "" (map (fun w => w ++ Examples.nl)%string ws)) EmptyString
  = ws ++ [EmptyString].
Proof.
  induction 1 as [|w ws Hw _ IH]; [reflexivity|].
  cbn [map].
  assert (E : String.concat "" ((w ++ Examples.nl)%string :: map (fun w => (w ++ Examples.nl)%string) ws)
              = (w ++ Examples.nl ++ String.concat "" (map (fun w => (w ++ Examples.nl)%string) ws))%string).
  { destruct ws as [|w' ws]; cbn [map String.concat].
    - rewrite IterFacts.append_nil_r. reflexivity.
    - cbn [append]. rewrite IterFacts.append_assoc. reflexivity. }
  rewrite E, (split_lines_line w _ Hw), IH. reflexivity.
Qed.

(** Tokens *)

Definition extend (cur : option string) (w : string) : option string :=
  match w with
  | EmptyString => cur
  | _ => Some ((match cur with Some t => t | None => EmptyString end) ++ w)%string
  end.

Lemma split_ws_app w : forall s cur,
  Fmt.all_chars not_space w = true ->
  split_ws (w ++ s) cur = split_ws s (extend cur w).
Proof.
  induction w as [|c w IH]; intros s cur H; cbn [append Fmt.all_chars] in *.
  - reflexivity.
  - apply andb_prop in H. destruct H as [H1 H2].
    cbn [split_ws]. unfold not_space in H1. apply negb_true_iff in H1.
    rewrite H1, (IH _ _ H2). f_equal.
    destruct w as [|d w]; cbn [extend].
    + reflexivity.
    + rewrite snoc_append. reflexivity.
Qed.

Lemma split_ws_spaces n s :
  split_ws (Py.spaces n ++ s) None = split_ws s None.
Proof. induction n as [|n IH]; [reflexivity|]. cbn [Py.spaces append]. exact IH. Qed.

Lemma split_ws_close n t s :
  split_ws (Py.spaces n ++ String " " s) (Some t) = t :: split_ws s None.
Proof.
  destruct n as [|n]; [reflexivity|].
  cbn [Py.spaces append]. 
  change (split_ws (String " " (Py.spaces n ++ String " " s)) (Some t))
    with (t :: split_ws (Py.spaces n ++ String " " s) None).
  f_equal. rewrite split_ws_spaces. reflexivity.
Qed.

Lemma is_word_spec w :
  is_word w = true -> w <> EmptyString /\ Fmt.all_chars not_space w = true.
Proof.
  unfold is_word. intros H. apply andb_prop in H. destruct H as [H1 H2].
  split; [|exact H2]. apply negb_true_iff in H1. now apply String.eqb_neq in H1.
Qed.

Lemma extend_word w : w <> EmptyString -> extend None w = Some w.
Proof. destruct w; [congruence|reflexivity]. Qed.

(** A word after optional padding, then a separating space. *)
Lemma split_ws_field n w s :
  is_word w = true ->
  split_ws (Py.spaces n ++ w ++ String " " s) None = w :: split_ws s None.
Proof.
  intros H. destruct (is_word_spec w H) as [Hne Hns].
  rewrite split_ws_spaces, (split_ws_app w _ _ Hns), (extend_word w Hne).
  reflexivity.
Qed.

(** The last word of a line. *)
Lemma split_ws_last n w :
  is_word w = true -> split_ws (Py.spaces n ++ w) None = [w].
Proof.
  intros H. destruct (is_word_spec w H) as [Hne Hns].
  rewrite split_ws_spaces. rewrite <- (IterFacts.append_nil_r w) at 1.
  rewrite (split_ws_app w _ _ Hns), (extend_word w Hne). reflexivity.
Qed.

(** The first word of a line, left-justified. *)
Lemma split_ws_first n w s :
  is_word w = true ->
  split_ws (w ++ Py.spaces n ++ String " " s) None = w :: split_ws s None.
Proof.
  intros H. destruct (is_word_spec w H) as [Hne Hns].
  rewrite (split_ws_app w _ _ Hns), (extend_word w Hne).
  apply split_ws_close.
Qed.

End ParseFacts.

(* ================================================================== *)
(** * The text of a molecule, read back *)
(* ================================================================== *)

Module TextFacts.
Import CoordinateString ParseFacts.

Lemma digit_not_space c : Fmt.is_digit c = true -> not_space c = true.
Proof.
  destruct c as [[] [] [] [] [] [] [] []]; intros H; try discriminate H; reflexivity.
Qed.

Lemma is_word_intro w :
  w <> EmptyString -> Fmt.all_chars not_space w = true -> is_word w = true.
Proof.
  intros Hne Hns. unfold is_word. rewrite Hns.
  apply String.eqb_neq in Hne. rewrite Hne. reflexivity.
Qed.

Lemma fixed_text_word s N : is_word (FmtFacts.fixed_text s N) = true.
Proof.
  apply is_word_intro.
  - intros E. apply (f_equal String.length) in E. unfold FmtFacts.fixed_text in E.
    rewrite !FmtFacts.length_append, FmtFacts.fixed_digits_length in E.
    cbn [String.length] in E. lia.
  - unfold FmtFacts.fixed_text. rewrite !FmtFacts.all_chars_app.
    rewrite (FmtFacts.all_chars_impl _ _ _ digit_not_space (FmtFacts.decimal_all_digits _)).
    rewrite (FmtFacts.all_chars_impl _ _ _ digit_not_space
               (FmtFacts.fixed_digits_all_digits _ _)).
    destruct s; reflexivity.
Qed.

Lemma format_f_word x : Fmt.fits x = true -> is_word (Fmt.format_f 10 x) = true.
Proof.
  unfold Fmt.fits. unfold B64.finite. intros H. apply andb_prop in H. destruct H as [Hfin _].
  destruct (Prim2SF x) as [s|s| |s m e] eqn:Ex; try discriminate.
  - rewrite (FmtFacts.format_f_zero x s Ex). apply fixed_text_word.
  - rewrite (FmtFacts.format_f_finite x s m e Ex). apply fixed_text_word.
Qed.

Lemma spaces_no_newline n : Fmt.all_chars not_newline (Py.spaces n) = true.
Proof. induction n as [|n IH]; [reflexivity|]. cbn [Py.spaces Fmt.all_chars]. now rewrite IH. Qed.

Lemma word_no_newline w : is_word w = true -> Fmt.all_chars not_newline w = true.
Proof.
  intros H. destruct (is_word_spec w H) as [_ Hns].
  exact (FmtFacts.all_chars_impl _ _ _ not_space_not_newline Hns).
Qed.

Lemma space_append s : (" " ++ s)%string = String " " s.
Proof. reflexivity. Qed.

(** One line of [__str__] without its line feed. *)
Definition row_line (l : string) (x y z : float) : string :=
  (Py.ljust 2 l ++ " " ++ Fmt.fmt_coord x ++ " " ++ Fmt.fmt_coord y
   ++ " " ++ Fmt.fmt_coord z)%string.

Lemma format_row_line l x y z rest :
  Molecule.format_row l (x :: y :: z :: rest) = Py.Ok (row_line l x y z ++ Examples.nl)%string.
Proof.
  unfold Molecule.format_row, row_line. f_equal.
  rewrite !IterFacts.append_assoc. reflexivity.
Qed.

Lemma tokens_row_line l x y z :
  is_word l = true -> Fmt.fits x = true -> Fmt.fits y = true -> Fmt.fits z = true ->
  tokens (row_line l x y z)
  = [l; Fmt.format_f 10 x; Fmt.format_f 10 y; Fmt.format_f 10 z].
Proof.
  intros Hl Hx Hy Hz.
  unfold tokens, row_line, Py.ljust, Fmt.fmt_coord, Py.rjust.
  rewrite !IterFacts.append_assoc, !space_append.
  rewrite (split_ws_first _ _ _ Hl).
  rewrite (split_ws_field _ _ _ (format_f_word x Hx)).
  rewrite (split_ws_field _ _ _ (format_f_word y Hy)).
  rewrite (split_ws_last _ _ (format_f_word z Hz)).
  reflexivity.
Qed.

Lemma row_line_no_newline l x y z :
  is_word l = true -> Fmt.fits x = true -> Fmt.fits y = true -> Fmt.fits z = true ->
  Fmt.all_chars not_newline (row_line l x y z) = true.
Proof.
  intros Hl Hx Hy Hz.
  unfold row_line, Py.ljust, Fmt.fmt_coord, Py.rjust.
  rewrite !FmtFacts.all_chars_app, !spaces_no_newline.
  rewrite (word_no_newline _ Hl), (word_no_newline _ (format_f_word x Hx)),
    (word_no_newline _ (format_f_word y Hy)), (word_no_newline _ (format_f_word z Hz)).
  reflexivity.
Qed.

Lemma classify_row_line l x y z :
  is_word l = true -> Fmt.fits x = true -> Fmt.fits y = true -> Fmt.fits z = true ->
  classify (row_line l x y z)
  = Data [l; Fmt.format_f 10 x; Fmt.format_f 10 y; Fmt.format_f 10 z].
Proof.
  intros Hl Hx Hy Hz. unfold classify.
  rewrite (tokens_row_line l x y z Hl Hx Hy Hz). reflexivity.
Qed.

(** A coordinate row whose first three components fit their fields. *)
Definition row_fits (row : list float) : bool :=
  match row with
  | x :: y :: z :: _ => (Fmt.fits x && Fmt.fits y && Fmt.fits z)%bool
  | _ => false
  end.

Definition item_ok (it : string * list float) : Prop :=
  is_word (fst it) = true /\ row_fits (snd it) = true.

Definition line_of (it : string * list float) : string :=
  match snd it with
  | x :: y :: z :: _ => row_line (fst it) x y z
  | _ => EmptyString
  end.

Definition toks_of (it : string * list float) : list string :=
  match snd it with
  | x :: y :: z :: _ => [fst it; Fmt.format_f 10 x; Fmt.format_f 10 y; Fmt.format_f 10 z]
  | _ => []
  end.

Lemma row_fits_inv row :
  row_fits row = true ->
  exists x y z rest, row = x :: y :: z :: rest
    /\ Fmt.fits x = true /\ Fmt.fits y = true /\ Fmt.fits z = true.
Proof.
  destruct row as [|x [|y [|z rest]]]; try discriminate. cbn [row_fits].
  intros H. apply andb_prop in H. destruct H as [H Hz].
  apply andb_prop in H. destruct H as [Hx Hy].
  exists x, y, z, rest. auto.
Qed.

Lemma format_rows_lines items ret :
  Forall item_ok items ->
  Molecule.format_rows ret items
  = Py.Ok (ret ++ String.concat "" (map (fun w => w ++ Examples.nl) (map line_of items)))%string.
Proof.
  intros H. apply IterFacts.format_rows_ok.
  induction H as [|[l row] items [Hl Hr] _ IH]; cbn [map]; constructor; [|exact IH].
  cbn [fst snd] in *. destruct (row_fits_inv row Hr) as [x [y [z [rest [E _]]]]].
  subst row. unfold line_of. cbn [fst snd]. apply format_row_line.
Qed.

Lemma lines_no_newline items :
  Forall item_ok items ->
  Forall (fun w => Fmt.all_chars not_newline w = true) (map line_of items).
Proof.
  induction 1 as [|[l row] items [Hl Hr] _ IH]; cbn [map]; constructor; [|exact IH].
  cbn [fst snd] in *. destruct (row_fits_inv row Hr) as [x [y [z [rest [E [Hx [Hy Hz]]]]]]].
  subst row. unfold line_of. cbn [fst snd]. now apply row_line_no_newline.
Qed.

Lemma classify_lines items :
  Forall item_ok items ->
  map classify (map line_of items) = map (fun it => Data (toks_of it)) items.
Proof.
  induction 1 as [|[l row] items [Hl Hr] _ IH]; cbn [map]; [reflexivity|].
  rewrite IH. f_equal.
  cbn [fst snd] in *. destruct (row_fits_inv row Hr) as [x [y [z [rest [E [Hx [Hy Hz]]]]]]].
  subst row. unfold line_of, toks_of. cbn [fst snd]. now apply classify_row_line.
Qed.

Lemma labels_of_items items :
  Forall item_ok items ->
  labels_of (map (fun it => Data (toks_of it)) items ++ [Blank]) = map fst items.
Proof.
  induction 1 as [|[l row] items [Hl Hr] _ IH]; cbn [map app]; [reflexivity|].
  cbn [fst snd] in *. destruct (row_fits_inv row Hr) as [x [y [z [rest [E _]]]]].
  subst row. unfold toks_of at 1. cbn [fst snd labels_of]. now rewrite IH.
Qed.

Lemma parse_row_item l x y z :
  Fmt.fits x = true -> Fmt.fits y = true -> Fmt.fits z = true ->
  exists r,
    parse_row [l; Fmt.format_f 10 x; Fmt.format_f 10 y; Fmt.format_f 10 z] = Py.Ok r
    /\ Forall2 (B64.within (1 # 10000000000)) [x; y; z] r.
Proof.
  intros Hx Hy Hz.
  destruct (FmtFacts.parse_format_within x Hx) as [x' [Ex Wx]].
  destruct (FmtFacts.parse_format_within y Hy) as [y' [Ey Wy]].
  destruct (FmtFacts.parse_format_within z Hz) as [z' [Ez Wz]].
  exists [x'; y'; z']. unfold parse_row. rewrite Ex, Ey, Ez.
  split; [reflexivity|].
  apply Forall2_cons; [exact Wx|].
  apply Forall2_cons; [exact Wy|].
  apply Forall2_cons; [exact Wz|apply Forall2_nil].
Qed.

Lemma rows_of_items items :
  Forall item_ok items ->
  exists rows,
    rows_of (map (fun it => Data (toks_of it)) items ++ [Blank]) = Py.Ok rows
    /\ Forall2 (Forall2 (B64.within (1 # 10000000000)))
         (map (fun it => firstn 3 (snd it)) items) rows.
Proof.
  induction 1 as [|[l row] items [Hl Hr] _ [rows [IH HF]]]; cbn [map app].
  - exists []. split; [reflexivity|constructor].
  - cbn [fst snd] in *.
    destruct (row_fits_inv row Hr) as [x [y [z [rest [E [Hx [Hy Hz]]]]]]].
    subst row. unfold toks_of at 1. cbn [fst snd rows_of].
    destruct (parse_row_item l x y z Hx Hy Hz) as [r [Er Wr]].
    rewrite Er, IH. exists (r :: rows). split; [reflexivity|].
    constructor; [exact Wr|exact HF].
Qed.

Lemma zip_items_ok (ls : list string) (a : list (list float)) :
  List.length a = List.length ls ->
  Forall (fun l => is_word l = true) ls ->
  Forall (fun row => row_fits row = true) a ->
  Forall item_ok (Py.zip ls a)
  /\ map fst (Py.zip ls a) = ls /\ map snd (Py.zip ls a) = a.
Proof.
  revert a; induction ls as [|l ls IH]; intros [|row a] Hlen Hls Ha;
    try discriminate Hlen; cbn [Py.zip map].
  - repeat split; constructor.
  - inversion Hls; subst. inversion Ha; subst.
    injection Hlen as Hlen.
    destruct (IH a Hlen H2 H4) as [H [E1 E2]].
    cbn [fst snd]. rewrite E1, E2. repeat split; constructor; auto. split; assumption.
Qed.

Lemma classify_units u :
  Molecule.valid_units u = true ->
  classify ("units " ++ u) = UnitsDirective u
  /\ Fmt.all_chars not_newline ("units " ++ u) = true
  /\ Py.lower u = u.
Proof.
  intros H. destruct (proj1 (MoleculeFacts.valid_units_true u) H) as [E|E]; subst u;
    repeat split; reflexivity.
Qed.

(** The lines of the text [__str__] builds, classified. *)
Lemma kinds_str u items :
  Molecule.valid_units u = true ->
  Forall item_ok items ->
  kinds (("units " ++ u ++ Examples.nl)
          ++ String.concat "" (map (fun w => w ++ Examples.nl) (map line_of items)))%string
  = UnitsDirective u :: map (fun it => Data (toks_of it)) items ++ [Blank].
Proof.
  intros Hu Hit. destruct (classify_units u Hu) as [Ec [Hn _]].
  unfold kinds.
  replace (("units " ++ u ++ Examples.nl)
           ++ String.concat "" (map (fun w => w ++ Examples.nl) (map line_of items)))%string
    with (("units " ++ u) ++ Examples.nl
          ++ String.concat "" (map (fun w => w ++ Examples.nl) (map line_of items)))%string
    by (rewrite !IterFacts.append_assoc; reflexivity).
  rewrite (split_lines_line _ _ Hn), (split_lines_concat _ (lines_no_newline _ Hit)).
  cbn [map]. rewrite Ec, map_app, (classify_lines _ Hit). reflexivity.
Qed.

End TextFacts.

(* ================================================================== *)
(** * Writing a molecule and reading it back *)
(* ================================================================== *)

Section TextRoundTrip.

Variable get_mass : string -> option float.
Variable absent_units : option string.

(** X15. Writing and reading back.  For a well-formed molecule whose
    units are ['angstrom'] or ['bohr'], whose labels are words (non-empty,
    no whitespace) and whose array has one row per label, each row with at
    least three components that fit the field of [{: >15.10f}]: [str(m)]
    succeeds, and [Molecule.from_string] of that text builds a molecule
    with the same labels in the same order, the same units, the same
    masses and atom count, around a new array whose rows are the first
    three components of the rows of [m], each within [10^-10] of the
    original.  The parser is the one modelled from the spec. *)
Theorem from_string_of_str m h a :
  Invariant.wf get_mass h m ->
  Molecule.valid_units (Molecule.units m) = true ->
  nth_error h (Molecule.coordinates m) = Some a ->
  List.length a = List.length (Molecule.labels m) ->
  Forall (fun l => ParseFacts.is_word l = true) (Molecule.labels m) ->
  Forall (fun row => TextFacts.row_fits row = true) a ->
  exists text m' a',
    Molecule.__str__ m h = (Py.Ok text, h)
    /\ Molecule.from_string get_mass absent_units text h = (Py.Ok m', h ++ [a'])
    /\ Molecule.labels m' = Molecule.labels m
    /\ Molecule.units m' = Molecule.units m
    /\ Molecule.masses m' = Molecule.masses m
    /\ Molecule.natom m' = Molecule.natom m
    /\ Molecule.coordinates m' = List.length h
    /\ Forall2 (Forall2 (B64.within (1 # 10000000000))) (map (firstn 3) a) a'.
Proof.
  intros [Hlive [Hm Hn]] Hu Ha Hlen Hls Hrows.
  destruct (TextFacts.zip_items_ok _ _ Hlen Hls Hrows) as [Hit [E1 E2]].
  destruct (TextFacts.rows_of_items _ Hit) as [rows [Er HF]].
  destruct (TextFacts.classify_units _ Hu) as [_ [_ El]].
  pose proof (TextFacts.kinds_str _ _ Hu Hit) as Hk.
  pose proof (TextFacts.format_rows_lines _
                ("units " ++ Molecule.units m ++ Examples.nl)%string Hit) as Hf.
  pose proof (TextFacts.labels_of_items _ Hit) as Hl.
  rewrite E1 in Hl. rewrite <- map_map, E2 in HF.
  eexists. exists (Molecule.mk (Molecule.labels m) (List.length h) (Molecule.units m)
                     (Molecule.masses m) (List.length (Molecule.labels m))), rows.
  split.
  { rewrite (IterFacts.str_eval m h a Ha). f_equal. exact Hf. }
  split.
  { unfold Molecule.from_string, Molecule.from_coord_string, Py.bind, Py.lift,
      CoordinateString.extract_units, CoordinateString.extract_labels,
      CoordinateString.extract_coordinates.
    rewrite Hk.
    cbn [CoordinateString.first_units CoordinateString.labels_of CoordinateString.rows_of].
    rewrite El, Er, Hl.
    destruct (MoleculeFacts.init_eval get_mass (Molecule.labels m) (Py.Nested rows)
                (Molecule.units m) h I) as [a' [Ei Ea]].
    subst a'. rewrite Ei, Hm, El, Hu. reflexivity. }
  cbn [Molecule.labels Molecule.units Molecule.masses Molecule.natom Molecule.coordinates].
  repeat split; auto.
Qed.

End TextRoundTrip.

Lemma from_string_of_str_witness :
  exists text m' a',
    Molecule.__str__ Examples.water Examples.water_heap = (Py.Ok text, Examples.water_heap)
    /\ Molecule.from_string Examples.mass_table None text Examples.water_heap
       = (Py.Ok m', Examples.water_heap ++ [a'])
    /\ Molecule.labels m' = Molecule.labels Examples.water
    /\ Molecule.units m' = Molecule.units Examples.water
    /\ Molecule.masses m' = Molecule.masses Examples.water
    /\ Molecule.natom m' = Molecule.natom Examples.water
    /\ Molecule.coordinates m' = List.length Examples.water_heap
    /\ Forall2 (Forall2 (B64.within (1 # 10000000000)))
         (map (firstn 3) Examples.water_coordinates) a'.
Proof.
  apply (from_string_of_str Examples.mass_table None Examples.water Examples.water_heap
           Examples.water_coordinates).
  - exact water_wf.
  - reflexivity.
  - reflexivity.
  - reflexivity.
  - repeat (apply Forall_cons; [reflexivity|]). apply Forall_nil.
  - repeat (apply Forall_cons; [vm_compute; reflexivity|]). apply Forall_nil.
Defined.
